(** * helpposuomi: the "latest Yle article" scraper

    A shallow embedding of [src/scraper.js] and of its stdout-only sibling
    [src/unnamed/part_000], with the properties the specification states
    about them.

    - JavaScript strings are sequences of UTF-16 code units: [jsstring] is
      [list N].  The built-in string methods the scripts call ([split],
      [join], [trim], [replace] with the regular expression [/\s+/g],
      [replaceAll], [startsWith]) are written out as list functions.
    - The Playwright driver, the clock, the URL constructor and the file
      system are the environment of a run.  A [World] fixes how each
      awaited call settles (resolves with a value or rejects with an
      error).
    - A run is a computation in a small writer/exception monad [M]: it
      yields a value or throws, and leaves the trace of the driver,
      console and file-system calls it made. *)

From Stdlib Require Import List NArith Bool Ascii String Lia.
Import ListNotations.

Local Open Scope N_scope.
Local Open Scope list_scope.

(* ===================================================================== *)
(** * JavaScript strings *)
(* ===================================================================== *)

Module JS.

(** A string is the list of its UTF-16 code units. *)
Definition char16 := N.
Definition jsstring := list char16.

(** ASCII text of the scripts, as code units. *)
Definition lit (s : string) : jsstring :=
  map N_of_ascii (list_ascii_of_string s).

(** Template text in which a backquote stands for the double quote
    (code unit 34), so that markup can be transcribed as it is written. *)
Definition tpl (s : string) : jsstring :=
  map (fun c => if c =? 96 then 34 else c) (lit s).

Definition LF : char16 := 10.
Definition SP : char16 := 32.

(** Truthiness of a string: only the empty string is falsy. *)
Definition truthy (s : jsstring) : bool :=
  match s with [] => false | _ :: _ => true end.

(** [a || b] on strings. *)
Definition or_else (a b : jsstring) : jsstring :=
  if truthy a then a else b.

(** [s.startsWith(p)] *)
Fixpoint startsWith (p s : jsstring) : bool :=
  match p, s with
  | [], _ => true
  | _ :: _, [] => false
  | x :: p', y :: s' => (x =? y) && startsWith p' s'
  end.

(** [s.split(c)] for a separator of one code unit.  The result is never
    empty: the empty string splits into one empty piece. *)
Fixpoint split (c : char16) (s : jsstring) : list jsstring :=
  match s with
  | [] => [[]]
  | x :: r =>
      if x =? c then [] :: split c r
      else match split c r with
           | l :: ls => (x :: l) :: ls
           | [] => [[x]]
           end
  end.

(** [ls.join(sep)] *)
Fixpoint join (sep : jsstring) (ls : list jsstring) : jsstring :=
  match ls with
  | [] => []
  | l :: ls' =>
      match ls' with
      | [] => l
      | _ :: _ => l ++ sep ++ join sep ls'
      end
  end.

(** The code units matched by [\s] and stripped by [trim]: ECMAScript's
    WhiteSpace and LineTerminator productions, all in the basic plane. *)
Definition is_ws (c : char16) : bool :=
  (c =? 9) || (c =? 10) || (c =? 11) || (c =? 12) || (c =? 13) ||
  (c =? 32) || (c =? 160) || (c =? 5760) ||
  ((8192 <=? c) && (c <=? 8202)) ||
  (c =? 8232) || (c =? 8233) || (c =? 8239) || (c =? 8287) ||
  (c =? 12288) || (c =? 65279).

(** [s.replace(/\s+/g, " ")]: scanning left to right, each maximal run of
    white space is replaced by one space.  [in_run] tells that the
    previous code unit belonged to the run being replaced. *)
Fixpoint replace_ws_from (in_run : bool) (s : jsstring) : jsstring :=
  match s with
  | [] => []
  | c :: r =>
      if is_ws c
      then if in_run then replace_ws_from true r
           else SP :: replace_ws_from true r
      else c :: replace_ws_from false r
  end.

Definition replace_ws (s : jsstring) : jsstring := replace_ws_from false s.

(** [s.trimStart()], [s.trimEnd()], [s.trim()] *)
Fixpoint trimStart (s : jsstring) : jsstring :=
  match s with
  | [] => []
  | c :: r => if is_ws c then trimStart r else s
  end.

Fixpoint trimEnd (s : jsstring) : jsstring :=
  match s with
  | [] => []
  | c :: r =>
      match trimEnd r with
      | [] => if is_ws c then [] else [c]
      | x :: r' => c :: x :: r'
      end
  end.

Definition trim (s : jsstring) : jsstring := trimEnd (trimStart s).

(** [s.replaceAll(c, rep)] for a pattern of one code unit and a
    replacement without [$] patterns: every occurrence is replaced. *)
Definition replaceAll (c : char16) (rep : jsstring) (s : jsstring) : jsstring :=
  flat_map (fun x => if x =? c then rep else [x]) s.

End JS.
Import JS.

(* ===================================================================== *)
(** * The article record and the pure functions of the scripts *)
(* ===================================================================== *)

(** The object returned at [scraper.js:102-107]. *)
Record ArticleRecord := {
  title : jsstring;
  url : jsstring;
  text : jsstring;
  fetchedAt : jsstring
}.

(** The per-line step of the cleanup,
    [line.replace(/\s+/g, " ").trim()]. *)
Definition clean_line (line : jsstring) : jsstring := trim (replace_ws line).

(** The cleanup at [scraper.js:96-100] and [part_000:94-98]:
    [text.split("\n").map(...).filter(Boolean).join("\n")]. *)
Definition cleaned (text : jsstring) : jsstring :=
  join [LF] (filter truthy (map clean_line (split LF text))).

(** [escapeHtml], [scraper.js:168-175]: five chained [replaceAll] calls. *)
Definition escapeHtml (s : jsstring) : jsstring :=
  replaceAll 39 (lit "&#39;")
    (replaceAll 34 (lit "&quot;")
      (replaceAll 62 (lit "&gt;")
        (replaceAll 60 (lit "&lt;")
          (replaceAll 38 (lit "&amp;") s)))).

Definition no_text_placeholder : jsstring := lit "(No article text extracted)".

(** [paragraphs], [scraper.js:120-125]. *)
Definition paragraphs (text : jsstring) : jsstring :=
  if truthy text
  then join [LF]
         (map (fun p => lit "<p>" ++ escapeHtml p ++ lit "</p>") (split LF text))
  else lit "<p>" ++ no_text_placeholder ++ lit "</p>".

(** A template literal is a sequence of literal chunks and substitutions. *)
Inductive piece :=
| Chunk (s : jsstring)
| Subst (v : jsstring).

Definition piece_string (p : piece) : jsstring :=
  match p with Chunk s => s | Subst v => v end.

(** The template literal of [renderHtml], [scraper.js:126-165]. *)
Definition renderHtml_template (r : ArticleRecord) : list piece :=
  [ Chunk (tpl "<!doctype html>
<html lang=`fi`>
<head>
  <meta charset=`utf-8` />
  <meta name=`viewport` content=`width=device-width, initial-scale=1` />
  <title>");
    Subst (escapeHtml (or_else (title r) (lit "Yle uusin artikkeli")));
    Chunk (tpl "</title>
  <style>
    body { font-family: system-ui, -apple-system, Segoe UI, Roboto, sans-serif; margin: 2rem auto; padding: 0 1rem; max-width: 820px; line-height: 1.6; color: #111; }
    header { margin-bottom: 1.5rem; }
    h1 { font-size: 1.8rem; margin: 0 0 .5rem 0; }
    .meta { color: #666; font-size: .95rem; }
    a { color: #0a63c6; text-decoration: none; }
    a:hover { text-decoration: underline; }
    footer { margin-top: 2rem; color: #666; font-size: .9rem; }
  </style>
  <meta name=`robots` content=`noindex` />
  <meta property=`og:title` content=`");
    Subst (escapeHtml (or_else (title r) (lit "Yle uusin artikkeli")));
    Chunk (tpl "` />
  <meta property=`og:url` content=`");
    Subst (escapeHtml (url r));
    Chunk (tpl "` />
  <meta name=`description` content=`Viimeisin Ylen artikkeli. P"
           ++ [228] ++ lit "ivitetty: ");
    Subst (escapeHtml (fetchedAt r));
    Chunk (tpl "` />
  <link rel=`icon` href=`data:,` />
  </head>
<body>
  <header>
    <h1>");
    Subst (escapeHtml (or_else (title r) (lit "Viimeisin Ylen artikkeli")));
    Chunk (tpl "</h1>
    <div class=`meta`>L" ++ [228] ++ tpl "hde: <a href=`");
    Subst (escapeHtml (url r));
    Chunk (tpl "`>");
    Subst (escapeHtml (url r));
    Chunk (lit "</a> " ++ [183] ++ lit " P" ++ [228] ++ lit "ivitetty: ");
    Subst (escapeHtml (fetchedAt r));
    Chunk (lit "</div>
  </header>
  <main>
    ");
    Subst (paragraphs (text r));
    Chunk (lit "
  </main>
  <footer>
    Rakennettu automaattisesti Playwright-selaimella.
  </footer>
</body>
</html>") ].

(** [renderHtml], [scraper.js:119-166]. *)
Definition renderHtml (r : ArticleRecord) : jsstring :=
  flat_map piece_string (renderHtml_template r).

(** An array element that is a string or [null]; [filter(Boolean)] keeps
    the non-empty strings. *)
Definition keep_truthy (xs : list (option jsstring)) : list jsstring :=
  flat_map (fun x => match x with
                     | Some s => if truthy s then [s] else []
                     | None => []
                     end) xs.

(** The plain-text summary, [scraper.js:200-207] (on the fields of [data])
    and [part_000:100-107] (on the local variables). *)
Definition output (title url text : jsstring) : jsstring :=
  join [LF]
    (keep_truthy
       [ (if truthy title then Some (lit "TITLE: " ++ title) else None);
         Some (lit "URL: " ++ url);
         Some (lit "---");
         Some (or_else text no_text_placeholder) ]).

(* ===================================================================== *)
(** * Effects: exceptions and the trace of calls *)
(* ===================================================================== *)

(** What a rejected driver call carries. *)
Inductive driver_error :=
| LaunchError         (* the browser could not be started *)
| TimeoutError        (* a wait or an action exceeded its bound *)
| NavigationError     (* a page failed to load *)
| TargetClosedError.  (* page, context or browser is gone *)

(** What a rejected call on the file system carries. *)
Inductive fs_error :=
| AccessDenied        (* the path may not be written *)
| NotADirectory       (* a part of the path is a file *)
| NoSpaceLeft.        (* the device is full *)

(** What a [throw] or a rejected promise carries inside a run. *)
Inductive error :=
| NoHrefError        (* [new Error("No href found on the most recent .underlay-link")] *)
| InvalidURLError    (* the [TypeError] of the [URL] constructor *)
| DriverError (d : driver_error)
| FsError (f : fs_error).

(** A settled promise, or a completed statement. *)
Inductive outcome (E A : Type) :=
| Ok (a : A)
| Throw (e : E).
Arguments Ok {E A} a.
Arguments Throw {E A} e.

(** How a driver call settles, and how a step of the script completes. *)
Definition settled (A : Type) : Type := outcome driver_error A.
Definition result (A : Type) : Type := outcome error A.

Inductive handle := Page | Context | Browser.

(** The calls a run makes on its collaborators, as they appear in a trace. *)
Inductive event :=
| Launch
| NewContext
| NewPage
| Goto (target : jsstring)
| WaitForSelector (selector : jsstring)
| GetAttribute (selector name : jsstring)
| WaitFor (selector : jsstring)
| TextContent (selector : jsstring)
| Count (selector : jsstring)
| InnerText (selector : jsstring)
| Close (h : handle)
| ConsoleError (prefix : jsstring) (e : error)
| ConsoleLog (line : jsstring)
| SetExitCode (code : N)
| FsMkdir (dir : jsstring)
| FsWriteFile (path content : jsstring).

(** A computation yields a value or throws, and leaves a trace. *)
Definition M (A : Type) : Type := result A * list event.

Definition ret {A} (a : A) : M A := (Ok a, []).

Definition throw {A} (e : error) : M A := (Throw e, []).

Definition bind {A B} (m : M A) (k : A -> M B) : M B :=
  match m with
  | (Ok a, t) => let (r, t') := k a in (r, t ++ t')
  | (Throw e, t) => (Throw e, t)
  end.

Notation "x <- m ;; k" := (bind m (fun x => k))
  (at level 61, m at next level, right associativity).
Notation "m ;; k" := (bind m (fun _ => k))
  (at level 61, right associativity).

(** A call that cannot fail. *)
Definition emit (ev : event) : M unit := (Ok tt, [ev]).

(** [await call]: the call is made, and settles as the world decides. *)
Definition await {A} (ev : event) (s : settled A) : M A :=
  (match s with Ok a => Ok a | Throw d => Throw (DriverError d) end, [ev]).

(** [await] of a call on the file system. *)
Definition await_fs {A} (ev : event) (s : outcome fs_error A) : M A :=
  (match s with Ok a => Ok a | Throw f => Throw (FsError f) end, [ev]).

(** A synchronous platform call that returns or throws. *)
Definition call {A} (r : result A) : M A := (r, []).

(** [promise.catch(handler)] and the [catch] clause of a [try]. *)
Definition catch {A} (m : M A) (handler : error -> M A) : M A :=
  match m with
  | (Ok a, t) => (Ok a, t)
  | (Throw e, t) => let (r, t') := handler e in (r, t ++ t')
  end.

(** [try { m } finally { f }]: [f] runs on every exit of [m]; the outcome
    of [m] stands unless [f] itself throws. *)
Definition finally {A} (m : M A) (f : M unit) : M A :=
  let (r, t) := m in
  match f with
  | (Ok _, t') => (r, t ++ t')
  | (Throw e, t') => (Throw e, t ++ t')
  end.

(** Truthiness of a number. *)
Definition nonzero (n : nat) : bool :=
  match n with O => false | S _ => true end.

(* ===================================================================== *)
(** * The environment of a run *)
(* ===================================================================== *)

(** A locator on the article page: how [count()] and
    [first().innerText()] settle. *)
Record Locator := {
  loc_count : settled nat;
  loc_innerText : settled jsstring
}.

(** The article page as the driver shows it. *)
Record ArticlePage := {
  pg_waitFor_article : settled unit;
  pg_waitFor_content : settled unit;
  pg_h1_textContent : settled (option jsstring);
  pg_article : Locator;
  pg_content : Locator;
  pg_main : Locator
}.

(** How every awaited call of one run settles, what the clock reads, and
    the platform's functions: [new URL(href, base).toString()] ([None]
    when the constructor throws its [TypeError]), [path.dirname],
    [path.join] and [JSON.stringify(data, null, 2)]. *)
Record World := {
  w_launch : settled unit;
  w_newContext : settled unit;
  w_newPage : settled unit;
  w_goto_home : settled unit;
  w_waitForSelector : settled unit;
  w_getAttribute : settled (option jsstring);
  w_URL : jsstring -> jsstring -> option jsstring;
  w_goto_article : jsstring -> settled unit;
  w_article_page : jsstring -> ArticlePage;
  w_now : jsstring;
  w_close_page : settled unit;
  w_close_context : settled unit;
  w_close_browser : settled unit;
  w_dirname : jsstring -> jsstring;
  w_join : jsstring -> jsstring -> jsstring;
  w_stringify : ArticleRecord -> jsstring;
  w_mkdir : jsstring -> outcome fs_error unit;
  w_writeFile : jsstring -> jsstring -> outcome fs_error unit
}.

Definition home_url : jsstring := lit "https://yle.fi/".
Definition base_origin : jsstring := lit "https://yle.fi".
Definition sel_link : jsstring := lit ".underlay-link".
Definition sel_article : jsstring := lit "article".
Definition sel_content : jsstring := lit "div.yle__article__content".
Definition sel_h1 : jsstring := lit "h1".
Definition sel_main : jsstring := lit "main".

(** Modelled from the spec: the driver's answer to the wait for a marker
    element (section 4.1, waiting policy) on a homepage whose matching
    elements are [links]: with no such element the wait exceeds its bound
    and fails with [Timeout]. *)
Definition wait_on (links : list (option jsstring)) : settled unit :=
  match links with
  | [] => Throw TimeoutError
  | _ :: _ => Ok tt
  end.

(** Modelled from the spec: the link attribute of the first matching
    element in document order; [None] is an absent attribute. *)
Definition href_on (links : list (option jsstring)) : settled (option jsstring) :=
  match links with
  | [] => Throw TimeoutError
  | first :: _ => Ok first
  end.

(* ===================================================================== *)
(** * [src/scraper.js] *)
(* ===================================================================== *)

Module Scraper.

(** Lines 32-34: the href is kept when it starts with [http], and is
    otherwise resolved against the fixed origin. *)
Definition targetUrl (w : World) (href : jsstring) : result jsstring :=
  if startsWith (lit "http") href
  then Ok href
  else match w_URL w href base_origin with
       | Some u => Ok u
       | None => Throw InvalidURLError
       end.

(** Lines 20-34: the latest link of the loaded homepage. *)
Definition latestLink (w : World) : M jsstring :=
  await (WaitForSelector sel_link) (w_waitForSelector w) ;;
  href <- await (GetAttribute sel_link (lit "href")) (w_getAttribute w) ;;
  match href with
  | None => throw NoHrefError
  | Some href =>
      if negb (truthy href) then throw NoHrefError
      else call (targetUrl w href)
  end.

(** [(await locator.first().innerText().catch(() => empty))?.trim()] *)
Definition innerText_trimmed (selector : jsstring) (l : Locator) : M jsstring :=
  t <- catch (await (InnerText selector) (loc_innerText l)) (fun _ => ret []) ;;
  ret (trim t).

(** Lines 42-93: title and body text of the loaded article page. *)
Definition content (pg : ArticlePage) : M (jsstring * jsstring) :=
  catch (await (WaitFor sel_article) (pg_waitFor_article pg)) (fun _ => ret tt) ;;
  catch (await (WaitFor sel_content) (pg_waitFor_content pg)) (fun _ => ret tt) ;;
  let text : jsstring := [] in
  h1 <- catch (await (TextContent sel_h1) (pg_h1_textContent pg))
              (fun _ => ret None) ;;
  let title := match h1 with
               | Some s => or_else (trim s) []
               | None => []
               end in
  n <- await (Count sel_article) (loc_count (pg_article pg)) ;;
  text <- (if nonzero n then innerText_trimmed sel_article (pg_article pg)
           else ret text) ;;
  text <- (if negb (truthy text)
           then n <- await (Count sel_content) (loc_count (pg_content pg)) ;;
                if nonzero n then innerText_trimmed sel_content (pg_content pg)
                else ret text
           else ret text) ;;
  text <- (if negb (truthy text)
           then n <- await (Count sel_main) (loc_count (pg_main pg)) ;;
                if nonzero n then innerText_trimmed sel_main (pg_main pg)
                else ret text
           else ret text) ;;
  ret (title, text).

(** Lines 15-107: the body of the [try]. *)
Definition extraction (w : World) : M ArticleRecord :=
  await (Goto home_url) (w_goto_home w) ;;
  targetUrl <- latestLink w ;;
  await (Goto targetUrl) (w_goto_article w targetUrl) ;;
  found <- content (w_article_page w targetUrl) ;;
  let title := fst found in
  let text := snd found in
  ret {| title := title; url := targetUrl; text := cleaned text;
         fetchedAt := w_now w |}.

(** Lines 10-117.  The session is acquired before the [try]; [None] is
    the [null] result. *)
Definition fetchLatestYleArticle (w : World) : M (option ArticleRecord) :=
  await Launch (w_launch w) ;;
  await NewContext (w_newContext w) ;;
  await NewPage (w_newPage w) ;;
  finally
    (catch (data <- extraction w ;; ret (Some data))
           (fun error =>
              emit (ConsoleError (lit "Scrape failed:") error) ;;
              emit (SetExitCode 1) ;;
              ret None))
    (catch (await (Close Page) (w_close_page w)) (fun _ => ret tt) ;;
     catch (await (Close Context) (w_close_context w)) (fun _ => ret tt) ;;
     catch (await (Close Browser) (w_close_browser w)) (fun _ => ret tt)).

(** Lines 177-187: each call on the file system is awaited and may
    reject, which ends [writeSite]. *)
Definition writeSite (w : World) (data : ArticleRecord) (outPath : jsstring)
  : M unit :=
  let outDir := w_dirname w outPath in
  await_fs (FsMkdir outDir) (w_mkdir w outDir) ;;
  let html := renderHtml data in
  await_fs (FsWriteFile outPath html) (w_writeFile w outPath html) ;;
  await_fs (FsWriteFile (w_join w outDir (lit "latest.json")) (w_stringify w data))
           (w_writeFile w (w_join w outDir (lit "latest.json"))
                        (w_stringify w data)).

(** Lines 189-211: the script run as a program; [outPath] is the argument
    after [--out], if any. *)
Definition main (outPath : option jsstring) (w : World) : M unit :=
  data <- fetchLatestYleArticle w ;;
  match data with
  | None => ret tt
  | Some data =>
      match outPath with
      | Some p =>
          if truthy p
          then writeSite w data p ;;
               emit (ConsoleLog (lit "Wrote site to " ++ p))
          else emit (ConsoleLog (output (title data) (url data) (text data)))
      | None => emit (ConsoleLog (output (title data) (url data) (text data)))
      end
  end.

End Scraper.

(* ===================================================================== *)
(** * [src/unnamed/part_000] *)
(* ===================================================================== *)

Module Part000.

(** Lines 8-118, in one piece as the script has it: the summary is
    printed inside the [try] and nothing is returned. *)
Definition fetchLatestYleArticle (w : World) : M unit :=
  await Launch (w_launch w) ;;
  await NewContext (w_newContext w) ;;
  await NewPage (w_newPage w) ;;
  finally
    (catch
       (await (Goto home_url) (w_goto_home w) ;;
        await (WaitForSelector sel_link) (w_waitForSelector w) ;;
        href <- await (GetAttribute sel_link (lit "href")) (w_getAttribute w) ;;
        href <- match href with
                | None => throw NoHrefError
                | Some href =>
                    if negb (truthy href) then throw NoHrefError else ret href
                end ;;
        targetUrl <- (if startsWith (lit "http") href
                      then ret href
                      else match w_URL w href base_origin with
                           | Some u => ret u
                           | None => throw InvalidURLError
                           end) ;;
        await (Goto targetUrl) (w_goto_article w targetUrl) ;;
        let pg := w_article_page w targetUrl in
        catch (await (WaitFor sel_article) (pg_waitFor_article pg))
              (fun _ => ret tt) ;;
        catch (await (WaitFor sel_content) (pg_waitFor_content pg))
              (fun _ => ret tt) ;;
        let text : jsstring := [] in
        h1 <- catch (await (TextContent sel_h1) (pg_h1_textContent pg))
                    (fun _ => ret None) ;;
        let title := match h1 with
                     | Some s => or_else (trim s) []
                     | None => []
                     end in
        n <- await (Count sel_article) (loc_count (pg_article pg)) ;;
        text <- (if nonzero n
                 then t <- catch (await (InnerText sel_article)
                                        (loc_innerText (pg_article pg)))
                                 (fun _ => ret []) ;;
                      ret (trim t)
                 else ret text) ;;
        text <- (if negb (truthy text)
                 then n <- await (Count sel_content) (loc_count (pg_content pg)) ;;
                      if nonzero n
                      then t <- catch (await (InnerText sel_content)
                                             (loc_innerText (pg_content pg)))
                                      (fun _ => ret []) ;;
                           ret (trim t)
                      else ret text
                 else ret text) ;;
        text <- (if negb (truthy text)
                 then n <- await (Count sel_main) (loc_count (pg_main pg)) ;;
                      if nonzero n
                      then t <- catch (await (InnerText sel_main)
                                             (loc_innerText (pg_main pg)))
                                      (fun _ => ret []) ;;
                           ret (trim t)
                      else ret text
                 else ret text) ;;
        let cleaned := cleaned text in
        emit (ConsoleLog (output title targetUrl cleaned)))
       (fun error =>
          emit (ConsoleError (lit "Scrape failed:") error) ;;
          emit (SetExitCode 1)))
    (catch (await (Close Page) (w_close_page w)) (fun _ => ret tt) ;;
     catch (await (Close Context) (w_close_context w)) (fun _ => ret tt) ;;
     catch (await (Close Browser) (w_close_browser w)) (fun _ => ret tt)).

(** Lines 120-122. *)
Definition main (w : World) : M unit := fetchLatestYleArticle w.

End Part000.

(* ===================================================================== *)
(** * Vocabulary of the specification *)
(* ===================================================================== *)

(** ** Text Normalizer *)

(** The words of a line: its maximal runs of code units that are not
    white space, in order. *)
Fixpoint words (s : jsstring) : list jsstring :=
  match s with
  | [] => []
  | c :: r =>
      if is_ws c then words r
      else match r with
           | [] => [[c]]
           | d :: _ =>
               if is_ws d then [c] :: words r
               else match words r with
                    | w :: ws => (c :: w) :: ws
                    | [] => [[c]]
                    end
           end
  end.

(** A word: not empty, and free of white space. *)
Definition is_word (w : jsstring) : bool :=
  truthy w && forallb (fun c => negb (is_ws c)) w.

(** The normalizer as the specification describes it (section 4.3): the
    input is split on line breaks; in each line every run of white space
    becomes one space and the ends are trimmed, which leaves the words of
    the line separated by single spaces; lines without a word are
    dropped; the others are joined by line breaks, in their order. *)
Definition normalize (raw : jsstring) : jsstring :=
  join [LF]
    (filter truthy (map (fun line => join [SP] (words line)) (split LF raw))).

(** ** HTML escaping *)

(** What [escapeHtml] makes of one code unit. *)
Definition escape_unit (c : char16) : jsstring :=
  if c =? 38 then lit "&amp;"
  else if c =? 60 then lit "&lt;"
  else if c =? 62 then lit "&gt;"
  else if c =? 34 then lit "&quot;"
  else if c =? 39 then lit "&#39;"
  else [c].

Definition entity_bodies : list jsstring :=
  [lit "amp;"; lit "lt;"; lit "gt;"; lit "quot;"; lit "#39;"].

(** No [<], [>], double or single quote occurs, and every [&] opens one
    of the five entities. *)
Fixpoint well_escaped (s : jsstring) : bool :=
  match s with
  | [] => true
  | c :: r =>
      if c =? 38
      then existsb (fun body => startsWith body r) entity_bodies
           && well_escaped r
      else negb ((c =? 60) || (c =? 62) || (c =? 34) || (c =? 39))
           && well_escaped r
  end.

(** The literal chunks of a template, in order. *)
Definition chunks_of (ps : list piece) : list jsstring :=
  flat_map (fun p => match p with Chunk c => [c] | Subst _ => [] end) ps.

Definition blank_record : ArticleRecord :=
  {| title := []; url := []; text := []; fetchedAt := [] |}.

(** The fixed text of the HTML document: the ten chunks of the template
    of [renderHtml], which no record reaches. *)
Definition html_chunks : list jsstring :=
  chunks_of (renderHtml_template blank_record).

(** A document: fixed chunks with a value between each two of them. *)
Fixpoint weave (chunks values : list jsstring) : jsstring :=
  match chunks with
  | [] => []
  | c :: cs =>
      c ++ match values with
           | [] => List.concat cs
           | v :: vs => v ++ weave cs vs
           end
  end.

(** The lines of the body that become paragraphs. *)
Definition body_lines (text : jsstring) : list jsstring :=
  if truthy text then split LF text else [no_text_placeholder].

(** ** URLs *)

Definition is_alpha (c : char16) : bool :=
  ((65 <=? c) && (c <=? 90)) || ((97 <=? c) && (c <=? 122)).

Definition is_lower (c : char16) : bool := (97 <=? c) && (c <=? 122).

Definition is_digit (c : char16) : bool := (48 <=? c) && (c <=? 57).

(** A code unit of a scheme after its first letter. *)
Definition scheme_unit (c : char16) : bool :=
  is_alpha c || is_digit c || (c =? 43) || (c =? 45) || (c =? 46).

(** The scheme of a string and what follows its colon, when the string
    starts with scheme units up to a colon. *)
Fixpoint scheme_split (s : jsstring) : option (jsstring * jsstring) :=
  match s with
  | [] => None
  | c :: r =>
      if c =? 58 then Some ([], r)
      else if scheme_unit c
           then match scheme_split r with
                | Some (scheme, rest) => Some (c :: scheme, rest)
                | None => None
                end
           else None
  end.

Definition to_lower (c : char16) : char16 :=
  if (65 <=? c) && (c <=? 90) then c + 32 else c.

(** The scheme is [http] or [https], in any case of letters. *)
Definition is_web_scheme (scheme : jsstring) : bool :=
  match map to_lower scheme with
  | [104; 116; 116; 112] => true
  | [104; 116; 116; 112; 115] => true
  | _ => false
  end.

(** A code unit of a serialized web address: printable ASCII other than
    the angle brackets; neither white space nor a control character. *)
Definition url_unit (c : char16) : bool :=
  (33 <=? c) && (c <=? 126) && negb ((c =? 60) || (c =? 62)).

(** The first code unit behind the two slashes: the authority is not
    empty. *)
Definition authority_start (c : char16) : bool :=
  url_unit c
  && negb ((c =? 47) || (c =? 63) || (c =? 35) || (c =? 92) || (c =? 64)).

(** A well-formed absolute URL: a scheme that starts with a letter and a
    colon; for the web schemes moreover the two slashes, a non-empty
    authority and nothing but URL code units, which is the fully
    qualified form [scheme://host...] of a web address. *)
Definition is_url (s : jsstring) : bool :=
  match s with
  | [] => false
  | c :: _ =>
      is_alpha c
      && match scheme_split s with
         | None => false
         | Some (scheme, rest) =>
             if is_web_scheme scheme
             then match rest with
                  | 47 :: 47 :: h :: more =>
                      authority_start h && forallb url_unit more
                  | _ => false
                  end
             else true
         end
  end.

(** A path-absolute reference that URL parsing leaves as it is: a slash,
    not followed by a second one, then letters, digits, [-], [_], [~]
    and slashes. *)
Definition plain_path (href : jsstring) : bool :=
  match href with
  | [] => false
  | c :: r =>
      (c =? 47)
      && negb (startsWith [47] r)
      && forallb (fun x => is_alpha x || is_digit x || (x =? 47) || (x =? 45)
                           || (x =? 95) || (x =? 126)) r
  end.

(** An origin [https://host] whose host is made of lower-case labels. *)
Definition plain_origin (o : jsstring) : bool :=
  startsWith (lit "https://") o
  && match skipn 8 o with
     | [] => false
     | c :: host =>
         is_lower c
         && forallb (fun x => is_lower x || (x =? 46)) host
         && is_lower (last host c)
     end.

(** What the URL Standard guarantees of [new URL(href, base).toString()],
    as far as the scripts rely on it: a result is a well-formed absolute
    URL, and a plain path resolved against a plain origin is appended to
    it. *)
Record URLStandard (URL : jsstring -> jsstring -> option jsstring) : Prop := {
  URL_wellformed :
    forall href base u, URL href base = Some u -> is_url u = true;
  URL_plain_path :
    forall href origin,
      plain_path href = true -> plain_origin origin = true ->
      URL href origin = Some (origin ++ href)
}.

(** The smallest URL constructor with these guarantees: it resolves plain
    paths against plain origins and rejects everything else. *)
Definition URL_plain (href base : jsstring) : option jsstring :=
  if plain_path href && plain_origin base then Some (base ++ href) else None.

(** A relative reference that URL parsing leaves as it is: letters,
    digits, [-], [_], [~] and slashes, the first no slash. *)
Definition plain_relative (href : jsstring) : bool :=
  match href with
  | [] => false
  | c :: r =>
      (is_alpha c || is_digit c)
      && forallb (fun x => is_alpha x || is_digit x || (x =? 47) || (x =? 45)
                           || (x =? 95) || (x =? 126)) r
  end.

(** A URL constructor that also resolves plain relative references
    against the root of a plain origin. *)
Definition URL_relative (href base : jsstring) : option jsstring :=
  if plain_origin base
  then if plain_path href then Some (base ++ href)
       else if plain_relative href then Some (base ++ [47] ++ href)
       else None
  else None.

(** ** Content Resolver *)

(** What a container yields: its trimmed inner text, and nothing when it
    is absent or when reading it fails. *)
Definition tier_text (l : Locator) (n : nat) : jsstring :=
  if nonzero n
  then match loc_innerText l with
       | Ok s => trim s
       | Throw _ => []
       end
  else [].

(** The first non-empty candidate, else the empty string. *)
Fixpoint first_nonempty (candidates : list jsstring) : jsstring :=
  match candidates with
  | [] => []
  | c :: rest => if truthy c then c else first_nonempty rest
  end.

(** The trimmed text of the first level-1 heading, else the empty string. *)
Definition title_of (pg : ArticlePage) : jsstring :=
  match pg_h1_textContent pg with
  | Ok (Some s) => trim s
  | _ => []
  end.

(** ** Runs *)

(** The session of the run exists: browser, context and page were obtained. *)
Definition acquired (w : World) : Prop :=
  w_launch w = Ok tt /\ w_newContext w = Ok tt /\ w_newPage w = Ok tt.

Definition is_close (ev : event) : bool :=
  match ev with Close _ => true | _ => false end.

Definition is_report (ev : event) : bool :=
  match ev with ConsoleError _ _ => true | SetExitCode _ => true | _ => false end.

Definition is_log (ev : event) : bool :=
  match ev with ConsoleLog _ => true | _ => false end.

(** The trace ends with the release of page, context and browser, and
    nothing was closed before. *)
Definition released (t : list event) : Prop :=
  exists before,
    t = before ++ [Close Page; Close Context; Close Browser]
    /\ forallb (fun ev => negb (is_close ev)) before = true.

(** The errors reported on the error stream. *)
Definition reported (t : list event) : list error :=
  flat_map (fun ev => match ev with ConsoleError _ e => [e] | _ => [] end) t.

(** The lines printed on the standard output. *)
Definition stdout (t : list event) : list jsstring :=
  flat_map (fun ev => match ev with ConsoleLog s => [s] | _ => [] end) t.

(** The trace without the lines printed on the standard output. *)
Definition calls (t : list event) : list event :=
  filter (fun ev => negb (is_log ev)) t.

(** What a caught call yields: its value, or the replacement. *)
Definition recover {A} (d : A) (s : settled A) : A :=
  match s with Ok a => a | Throw _ => d end.

(** Every event of the trace of a computation satisfies [p]. *)
Definition emits (p : event -> bool) {A} (m : M A) : Prop :=
  forallb p (snd m) = true.

(** The calls made between the acquisition and the release of the
    session: neither a close, nor a report, nor a printed line. *)
Definition is_step (ev : event) : bool :=
  negb (is_close ev) && negb (is_report ev) && negb (is_log ev).

(** What one tier makes of the text found so far: a text already found
    stands; otherwise the container is counted and read. *)
Definition tier_result (l : Locator) (text : jsstring) : result jsstring :=
  if truthy text then Ok text
  else match loc_count l with
       | Ok n => Ok (tier_text l n)
       | Throw d => Throw (DriverError d)
       end.

(** The three tiers in their order, with the title. *)
Definition content_result (pg : ArticlePage) : result (jsstring * jsstring) :=
  match tier_result (pg_article pg) [] with
  | Throw e => Throw e
  | Ok t1 =>
      match tier_result (pg_content pg) t1 with
      | Throw e => Throw e
      | Ok t2 =>
          match tier_result (pg_main pg) t2 with
          | Throw e => Throw e
          | Ok t3 => Ok (title_of pg, t3)
          end
      end
  end.

(** The Latest-Link Resolver as a value: what it returns or throws. *)
Definition latestLink_result (w : World) : result jsstring :=
  match w_waitForSelector w with
  | Throw d => Throw (DriverError d)
  | Ok _ =>
      match w_getAttribute w with
      | Throw d => Throw (DriverError d)
      | Ok None => Throw NoHrefError
      | Ok (Some href) =>
          if truthy href then Scraper.targetUrl w href else Throw NoHrefError
      end
  end.

(** The body of the [try] as a value. *)
Definition extraction_result (w : World) : result ArticleRecord :=
  match w_goto_home w with
  | Throw d => Throw (DriverError d)
  | Ok _ =>
      match latestLink_result w with
      | Throw e => Throw e
      | Ok target =>
          match w_goto_article w target with
          | Throw d => Throw (DriverError d)
          | Ok _ =>
              match content_result (w_article_page w target) with
              | Throw e => Throw e
              | Ok found =>
                  Ok {| title := fst found; url := target;
                        text := cleaned (snd found); fetchedAt := w_now w |}
              end
          end
      end
  end.

(** The events of the acquisition, of the release and of a report. *)
Definition opening : list event := [Launch; NewContext; NewPage].

Definition closing : list event := [Close Page; Close Context; Close Browser].

Definition report (e : error) : list event :=
  [ConsoleError (lit "Scrape failed:") e; SetExitCode 1].

(** Printing the summary of a record, as the main block of
    [scraper.js] does. *)
Definition print_summary (data : ArticleRecord) : M unit :=
  emit (ConsoleLog (output (title data) (url data) (text data))).

(** ** Sample environments *)

(** Stand-ins for the platform's path and JSON functions in the sample
    environments: they agree with [path.dirname] and [path.join] on
    relative paths [dir/file] without a trailing slash, and with
    [JSON.stringify(data, null, 2)] on records whose fields hold
    printable ASCII and line breaks. *)
Definition sample_dirname (p : jsstring) : jsstring :=
  match removelast (split 47 p) with
  | [] => lit "."
  | dirs => join [47] dirs
  end.

Definition sample_join (dir name : jsstring) : jsstring := dir ++ [47] ++ name.

Definition sample_quote (s : jsstring) : jsstring :=
  [34]
  ++ flat_map (fun c => if (c =? 34) || (c =? 92) then [92; c]
                        else if c =? 10 then [92; 110]
                        else [c]) s
  ++ [34].

Definition sample_stringify (data : ArticleRecord) : jsstring :=
  lit "{" ++ [LF]
  ++ lit "  " ++ sample_quote (lit "title") ++ lit ": "
  ++ sample_quote (title data) ++ lit "," ++ [LF]
  ++ lit "  " ++ sample_quote (lit "url") ++ lit ": "
  ++ sample_quote (url data) ++ lit "," ++ [LF]
  ++ lit "  " ++ sample_quote (lit "text") ++ lit ": "
  ++ sample_quote (text data) ++ lit "," ++ [LF]
  ++ lit "  " ++ sample_quote (lit "fetchedAt") ++ lit ": "
  ++ sample_quote (fetchedAt data) ++ [LF]
  ++ lit "}".

Definition sample_page : ArticlePage := {|
  pg_waitFor_article := Ok tt;
  pg_waitFor_content := Throw TimeoutError;
  pg_h1_textContent := Ok (Some (lit "Headline"));
  pg_article :=
    {| loc_count := Ok 1%nat;
       loc_innerText := Ok (lit "Line one" ++ [LF; LF] ++ lit "  Line two  ") |};
  pg_content :=
    {| loc_count := Ok 1%nat; loc_innerText := Ok (lit "Teaser") |};
  pg_main := {| loc_count := Ok 0%nat; loc_innerText := Throw TimeoutError |}
|}.

(** A homepage with the marker links [links], and [sample_page] behind
    every address. *)
Definition world_with (links : list (option jsstring)) : World := {|
  w_launch := Ok tt;
  w_newContext := Ok tt;
  w_newPage := Ok tt;
  w_goto_home := Ok tt;
  w_waitForSelector := wait_on links;
  w_getAttribute := href_on links;
  w_URL := URL_plain;
  w_goto_article := fun _ => Ok tt;
  w_article_page := fun _ => sample_page;
  w_now := lit "2024-05-01T10:00:00.000Z";
  w_close_page := Ok tt;
  w_close_context := Ok tt;
  w_close_browser := Ok tt;
  w_dirname := sample_dirname;
  w_join := sample_join;
  w_stringify := sample_stringify;
  w_mkdir := fun _ => Ok tt;
  w_writeFile := fun _ _ => Ok tt
|}.

Definition sample_world : World :=
  world_with [Some (lit "/b/2"); Some (lit "/a/1")].

(** The browser cannot be started. *)
Definition no_browser_world : World := {|
  w_launch := Throw LaunchError;
  w_newContext := Ok tt;
  w_newPage := Ok tt;
  w_goto_home := Ok tt;
  w_waitForSelector := Ok tt;
  w_getAttribute := Ok (Some (lit "/b/2"));
  w_URL := URL_plain;
  w_goto_article := fun _ => Ok tt;
  w_article_page := fun _ => sample_page;
  w_now := lit "2024-05-01T10:00:00.000Z";
  w_close_page := Ok tt;
  w_close_context := Ok tt;
  w_close_browser := Ok tt;
  w_dirname := sample_dirname;
  w_join := sample_join;
  w_stringify := sample_stringify;
  w_mkdir := fun _ => Ok tt;
  w_writeFile := fun _ _ => Ok tt
|}.

(** The browser starts, but no context can be opened in it. *)
Definition no_context_world : World := {|
  w_launch := Ok tt;
  w_newContext := Throw TargetClosedError;
  w_newPage := Ok tt;
  w_goto_home := Ok tt;
  w_waitForSelector := Ok tt;
  w_getAttribute := Ok (Some (lit "/b/2"));
  w_URL := URL_plain;
  w_goto_article := fun _ => Ok tt;
  w_article_page := fun _ => sample_page;
  w_now := lit "2024-05-01T10:00:00.000Z";
  w_close_page := Ok tt;
  w_close_context := Ok tt;
  w_close_browser := Ok tt;
  w_dirname := sample_dirname;
  w_join := sample_join;
  w_stringify := sample_stringify;
  w_mkdir := fun _ => Ok tt;
  w_writeFile := fun _ _ => Ok tt
|}.

(** The article fails to load, and the page then refuses to close. *)
Definition article_unreachable_world : World := {|
  w_launch := Ok tt;
  w_newContext := Ok tt;
  w_newPage := Ok tt;
  w_goto_home := Ok tt;
  w_waitForSelector := Ok tt;
  w_getAttribute := Ok (Some (lit "/b/2"));
  w_URL := URL_plain;
  w_goto_article := fun _ => Throw NavigationError;
  w_article_page := fun _ => sample_page;
  w_now := lit "2024-05-01T10:00:00.000Z";
  w_close_page := Throw TargetClosedError;
  w_close_context := Ok tt;
  w_close_browser := Ok tt;
  w_dirname := sample_dirname;
  w_join := sample_join;
  w_stringify := sample_stringify;
  w_mkdir := fun _ => Ok tt;
  w_writeFile := fun _ _ => Ok tt
|}.

(** The first link merely starts with [http]; the platform resolves
    relative references, and the driver refuses to load what is no URL. *)
Definition kept_href_world : World := {|
  w_launch := Ok tt;
  w_newContext := Ok tt;
  w_newPage := Ok tt;
  w_goto_home := Ok tt;
  w_waitForSelector := Ok tt;
  w_getAttribute := Ok (Some (lit "httpx/a"));
  w_URL := URL_relative;
  w_goto_article := fun u => if is_url u then Ok tt else Throw NavigationError;
  w_article_page := fun _ => sample_page;
  w_now := lit "2024-05-01T10:00:00.000Z";
  w_close_page := Ok tt;
  w_close_context := Ok tt;
  w_close_browser := Ok tt;
  w_dirname := sample_dirname;
  w_join := sample_join;
  w_stringify := sample_stringify;
  w_mkdir := fun _ => Ok tt;
  w_writeFile := fun _ _ => Ok tt
|}.

(** The output directory may not be written. *)
Definition read_only_world : World := {|
  w_launch := Ok tt;
  w_newContext := Ok tt;
  w_newPage := Ok tt;
  w_goto_home := Ok tt;
  w_waitForSelector := Ok tt;
  w_getAttribute := Ok (Some (lit "/b/2"));
  w_URL := URL_plain;
  w_goto_article := fun _ => Ok tt;
  w_article_page := fun _ => sample_page;
  w_now := lit "2024-05-01T10:00:00.000Z";
  w_close_page := Ok tt;
  w_close_context := Ok tt;
  w_close_browser := Ok tt;
  w_dirname := sample_dirname;
  w_join := sample_join;
  w_stringify := sample_stringify;
  w_mkdir := fun _ => Ok tt;
  w_writeFile := fun _ _ => Throw AccessDenied
|}.

(** An article page that goes away while its containers are counted. *)
Definition vanishing_page : ArticlePage := {|
  pg_waitFor_article := Ok tt;
  pg_waitFor_content := Ok tt;
  pg_h1_textContent := Ok (Some (lit "Headline"));
  pg_article :=
    {| loc_count := Throw TargetClosedError; loc_innerText := Ok (lit "Body") |};
  pg_content := {| loc_count := Ok 0%nat; loc_innerText := Ok [] |};
  pg_main := {| loc_count := Ok 0%nat; loc_innerText := Ok [] |}
|}.

(* ===================================================================== *)
(** * Vocabulary of the further properties *)
(* ===================================================================== *)

(** One of the five characters that [escapeHtml] replaces. *)
Definition is_special (c : char16) : bool :=
  (c =? 38) || (c =? 60) || (c =? 62) || (c =? 34) || (c =? 39).

(** Reading escaped text back: each of the five entities stands for its
    character.  [skip] counts the code units of an entity body still to
    be passed over. *)
Fixpoint unescape_from (skip : nat) (s : jsstring) : jsstring :=
  match s with
  | [] => []
  | c :: r =>
      match skip with
      | S k => unescape_from k r
      | O =>
          if c =? 38 then
            if startsWith (lit "amp;") r then 38 :: unescape_from 4 r
            else if startsWith (lit "lt;") r then 60 :: unescape_from 3 r
            else if startsWith (lit "gt;") r then 62 :: unescape_from 3 r
            else if startsWith (lit "quot;") r then 34 :: unescape_from 5 r
            else if startsWith (lit "#39;") r then 39 :: unescape_from 4 r
            else c :: unescape_from 0 r
          else c :: unescape_from 0 r
      end
  end.

Definition unescapeHtml (s : jsstring) : jsstring := unescape_from 0 s.

(** How often a code unit occurs in a string. *)
Definition count_unit (c : char16) (s : jsstring) : nat :=
  List.length (filter (N.eqb c) s).

(** The lines that survive the cleanup. *)
Definition kept_lines (text : jsstring) : list jsstring :=
  filter truthy (map clean_line (split LF text)).

(** A paragraph of the HTML render. *)
Definition paragraph (line : jsstring) : jsstring :=
  lit "<p>" ++ escapeHtml line ++ lit "</p>".

(** The number of paragraphs the HTML render gives a body text. *)
Definition paragraph_count (text : jsstring) : nat :=
  if truthy text then List.length (split LF text) else 1%nat.

(** White space is in order from here on: every white-space unit is a
    space or a line break, none follows another one or the start, and
    none stands at the end.  [after_ws] tells that the previous code unit
    was white space (or that the text starts here). *)
Fixpoint spaced (after_ws : bool) (s : jsstring) : bool :=
  match s with
  | [] => negb after_ws
  | c :: r =>
      if is_ws c
      then negb after_ws && ((c =? SP) || (c =? LF)) && spaced true r
      else spaced false r
  end.

(** Tidy text: empty, or with its white space in order. *)
Definition tidy (s : jsstring) : bool :=
  match s with
  | [] => true
  | _ :: _ => spaced true s
  end.

(** The selectors counted, the selectors whose inner text was read and
    the addresses navigated to, in the order of the calls. *)
Definition counted (t : list event) : list jsstring :=
  flat_map (fun ev => match ev with Count sel => [sel] | _ => [] end) t.

Definition texts_read (t : list event) : list jsstring :=
  flat_map (fun ev => match ev with InnerText sel => [sel] | _ => [] end) t.

Definition gotos (t : list event) : list jsstring :=
  flat_map (fun ev => match ev with Goto target => [target] | _ => [] end) t.

Definition is_goto (ev : event) : bool :=
  match ev with Goto _ => true | _ => false end.

(** The calls on the file system. *)
Definition is_fs (ev : event) : bool :=
  match ev with
  | FsMkdir _ => true
  | FsWriteFile _ _ => true
  | _ => false
  end.

Definition fs_calls (t : list event) : list event := filter is_fs t.

(** The container holds at least one element. *)
Definition present (l : Locator) : bool :=
  match loc_count l with Ok n => nonzero n | Throw _ => false end.

(** The calls one tier makes on its container: it is counted, and read
    when it holds an element. *)
Definition tier_calls (sel : jsstring) (l : Locator) : list event :=
  Count sel :: (if present l then [InnerText sel] else []).

(** The container was counted and yielded no text. *)
Definition yields_nothing (l : Locator) : bool :=
  match loc_count l with
  | Ok n => negb (truthy (tier_text l n))
  | Throw _ => false
  end.

(* ===================================================================== *)
(** * Strings: splitting, joining, white space *)
(* ===================================================================== *)

Section StringFacts.

Lemma is_ws_SP : is_ws SP = true.
Proof. reflexivity. Qed.

Lemma truthy_app_l (a b : jsstring) : truthy a = true -> truthy (a ++ b) = true.
Proof. destruct a; [discriminate | reflexivity]. Qed.

(** A string without the separator is one piece. *)
Lemma split_without c s : ~ In c s -> split c s = [s].
Proof.
  induction s as [|x r IH]; intros Hn; simpl; [reflexivity|].
  destruct (N.eqb_spec x c) as [->|_].
  - exfalso. apply Hn. now left.
  - rewrite IH; [reflexivity|]. intros Hin. apply Hn. now right.
Qed.

(** Splitting goes through the first separator. *)
Lemma split_app_sep c l r :
  ~ In c l -> split c (l ++ c :: r) = l :: split c r.
Proof.
  induction l as [|x l IH]; intros Hn; simpl.
  - now rewrite N.eqb_refl.
  - destruct (N.eqb_spec x c) as [->|_].
    + exfalso. apply Hn. now left.
    + rewrite IH; [reflexivity|]. intros Hin. apply Hn. now right.
Qed.

(** Joining and splitting again gives the pieces back. *)
Lemma split_join c ls :
  ls <> [] -> Forall (fun l => ~ In c l) ls -> split c (join [c] ls) = ls.
Proof.
  induction ls as [|l ls IH]; intros Hne Hall; [congruence|].
  inversion Hall as [|? ? Hl Hls]; subst.
  destruct ls as [|l' ls'].
  - simpl. now apply split_without.
  - change (join [c] (l :: l' :: ls')) with (l ++ c :: join [c] (l' :: ls')).
    rewrite split_app_sep by assumption.
    f_equal. apply IH; [discriminate | assumption].
Qed.

Lemma join_cons sep l l' ls :
  join sep (l :: l' :: ls) = l ++ sep ++ join sep (l' :: ls).
Proof. reflexivity. Qed.

(** ** Words *)

Lemma words_ws c r : is_ws c = true -> words (c :: r) = words r.
Proof. intros H. simpl. now rewrite H. Qed.

Lemma words_visible c r :
  is_ws c = false ->
  words (c :: r) =
  match r with
  | [] => [[c]]
  | d :: _ =>
      if is_ws d then [c] :: words r
      else match words r with
           | w :: ws => (c :: w) :: ws
           | [] => [[c]]
           end
  end.
Proof. intros H. simpl. rewrite H. now destruct r. Qed.

(** A line that starts with a visible code unit has a first word. *)
Lemma words_start c r : is_ws c = false -> words (c :: r) <> [].
Proof.
  intros H. rewrite (words_visible c r H).
  destruct r as [|d r']; [discriminate|].
  destruct (is_ws d); [discriminate|].
  destruct (words (d :: r')); discriminate.
Qed.

Lemma is_word_single c : is_ws c = false -> is_word [c] = true.
Proof. intros H. unfold is_word. simpl. now rewrite H. Qed.

Lemma is_word_cons c w : is_ws c = false -> is_word w = true -> is_word (c :: w) = true.
Proof.
  unfold is_word. intros Hc Hw. apply andb_prop in Hw as [_ Hfree].
  simpl. now rewrite Hc, Hfree.
Qed.

Lemma words_are_words s : forallb is_word (words s) = true.
Proof.
  induction s as [|c r IH]; [reflexivity|].
  destruct (is_ws c) eqn:Hc; [now rewrite (words_ws c r Hc)|].
  rewrite (words_visible c r Hc).
  destruct r as [|d r']; [cbn [forallb]; now rewrite (is_word_single c Hc)|].
  destruct (is_ws d) eqn:Hd.
  - cbn [forallb]. now rewrite IH, (is_word_single c Hc).
  - destruct (words (d :: r')) as [|w ws].
    + cbn [forallb]. now rewrite (is_word_single c Hc).
    + cbn [forallb] in IH |- *. apply andb_prop in IH as [Hword Hrest].
      now rewrite Hrest, (is_word_cons c w Hc Hword).
Qed.

Lemma join_words_truthy s :
  words s <> [] -> truthy (join [SP] (words s)) = true.
Proof.
  intros Hne. pose proof (words_are_words s) as Hall.
  destruct (words s) as [|w ws]; [congruence|].
  simpl in Hall. apply andb_prop in Hall as [Hw _].
  unfold is_word in Hw. apply andb_prop in Hw as [Hw _].
  destruct ws; simpl; [exact Hw | now apply truthy_app_l].
Qed.

(** The words of a line are its visible code units, in order. *)
Lemma concat_words s : List.concat (words s) = filter (fun c => negb (is_ws c)) s.
Proof.
  induction s as [|c r IH]; [reflexivity|].
  destruct (is_ws c) eqn:Hc.
  - rewrite (words_ws c r Hc). simpl. now rewrite Hc.
  - rewrite (words_visible c r Hc). simpl filter. rewrite Hc. simpl negb. cbv iota.
    rewrite <- IH.
    destruct r as [|d r']; [reflexivity|].
    destruct (is_ws d) eqn:Hd; [reflexivity|].
    pose proof (words_start d r' Hd) as Hne.
    destruct (words (d :: r')) as [|w ws]; [congruence | reflexivity].
Qed.

(** ** Collapsing and trimming a line leaves its words *)

Lemma trimEnd_visible c s : is_ws c = false -> trimEnd (c :: s) = c :: trimEnd s.
Proof. intros H. simpl. rewrite H. now destruct (trimEnd s). Qed.

Lemma replace_ws_from_visible b c r :
  is_ws c = false -> replace_ws_from b (c :: r) = c :: replace_ws_from false r.
Proof. intros H. simpl. now rewrite H. Qed.

(** What remains of a line once white space is collapsed and the end is
    trimmed: its words under single spaces, after one space when the line
    starts a new run of white space. *)
Lemma trimEnd_replace_ws s :
  trimEnd (replace_ws_from true s) = join [SP] (words s)
  /\ trimEnd (replace_ws_from false s) =
     match s with
     | [] => []
     | c :: _ =>
         if is_ws c
         then match words s with
              | [] => []
              | _ :: _ => SP :: join [SP] (words s)
              end
         else join [SP] (words s)
     end.
Proof.
  induction s as [|c r [IHt IHf]]; [now split|].
  destruct (is_ws c) eqn:Hc.
  - rewrite (words_ws c r Hc). split.
    + simpl. now rewrite Hc.
    + simpl replace_ws_from. rewrite Hc.
      simpl trimEnd. rewrite IHt.
      destruct (words r) as [|w ws] eqn:Hw; [reflexivity|].
      assert (Ht : truthy (join [SP] (words r)) = true)
        by (apply join_words_truthy; rewrite Hw; discriminate).
      rewrite Hw in Ht. now destruct (join [SP] (w :: ws)).
  - assert (Hboth : forall b,
               trimEnd (replace_ws_from b (c :: r)) = join [SP] (words (c :: r))).
    { intros b. rewrite (replace_ws_from_visible b c r Hc).
      rewrite (trimEnd_visible c _ Hc). rewrite IHf.
      rewrite (words_visible c r Hc).
      destruct r as [|d r']; [reflexivity|].
      destruct (is_ws d) eqn:Hd.
      - destruct (words (d :: r')) as [|w ws]; reflexivity.
      - pose proof (words_start d r' Hd) as Hne.
        destruct (words (d :: r')) as [|w ws]; [congruence|].
        destruct ws; reflexivity. }
    split; apply Hboth.
Qed.

Lemma trim_replace_ws_from b s :
  trim (replace_ws_from b s) = join [SP] (words s).
Proof.
  revert b. induction s as [|c r IH]; intros b; [reflexivity|].
  destruct (is_ws c) eqn:Hc.
  - rewrite (words_ws c r Hc). simpl. rewrite Hc.
    destruct b; [apply IH|]. unfold trim. simpl. apply IH.
  - unfold trim. rewrite (replace_ws_from_visible b c r Hc).
    simpl trimStart. rewrite Hc.
    rewrite <- (replace_ws_from_visible true c r Hc).
    apply trimEnd_replace_ws.
Qed.

(** [line.replace(/\s+/g, " ").trim()] is the line's words under single
    spaces. *)
Lemma clean_line_words line : clean_line line = join [SP] (words line).
Proof. apply trim_replace_ws_from. Qed.

End StringFacts.

(* ===================================================================== *)
(** * The cleanup of the body text *)
(* ===================================================================== *)

Section Cleanup.

(** A word followed by the end of the line or by white space is the first
    word of the line. *)
Lemma words_app_word w rest :
  is_word w = true ->
  match rest with [] => True | c :: _ => is_ws c = true end ->
  words (w ++ rest) = w :: words rest.
Proof.
  induction w as [|c w IH]; intros Hw Hrest; [discriminate|].
  unfold is_word in Hw. simpl in Hw.
  apply andb_prop in Hw as [Hc Hfree]. apply negb_true_iff in Hc.
  change ((c :: w) ++ rest) with (c :: (w ++ rest)).
  rewrite (words_visible c _ Hc).
  destruct w as [|d w'].
  - simpl app. destruct rest as [|x rest']; [reflexivity|].
    now rewrite Hrest.
  - assert (Hd : is_ws d = false).
    { simpl in Hfree. apply andb_prop in Hfree as [Hd _].
      now apply negb_true_iff in Hd. }
    assert (Hw' : is_word (d :: w') = true) by (unfold is_word; exact Hfree).
    specialize (IH Hw' Hrest). cbn [app] in IH |- *.
    rewrite Hd, IH. reflexivity.
Qed.

(** The words of a line of single-spaced words are those words. *)
Lemma words_join ws :
  forallb is_word ws = true -> words (join [SP] ws) = ws.
Proof.
  induction ws as [|w ws IH]; intros Hall; [reflexivity|].
  simpl in Hall. apply andb_prop in Hall as [Hw Hws].
  destruct ws as [|w' ws'].
  - simpl join. rewrite <- (app_nil_r w) at 1.
    now rewrite (words_app_word w [] Hw I).
  - rewrite join_cons. change ([SP] ++ join [SP] (w' :: ws'))
      with (SP :: join [SP] (w' :: ws')).
    rewrite (words_app_word w (SP :: join [SP] (w' :: ws')) Hw is_ws_SP).
    rewrite (words_ws SP _ is_ws_SP). now rewrite IH.
Qed.

Lemma clean_line_idem line : clean_line (clean_line line) = clean_line line.
Proof.
  rewrite !clean_line_words. now rewrite words_join by apply words_are_words.
Qed.

(** The only white space of a cleaned line is the single space. *)
Lemma clean_line_units line c :
  In c (clean_line line) -> c = SP \/ is_ws c = false.
Proof.
  rewrite clean_line_words. pose proof (words_are_words line) as Hall.
  induction (words line) as [|w ws IH]; [contradiction|].
  simpl in Hall. apply andb_prop in Hall as [Hw Hws].
  assert (Hin_w : In c w -> is_ws c = false).
  { unfold is_word in Hw. apply andb_prop in Hw as [_ Hfree].
    rewrite forallb_forall in Hfree. intros Hin.
    now apply negb_true_iff, Hfree. }
  destruct ws as [|w' ws'].
  - simpl. auto.
  - rewrite join_cons. intros Hin.
    apply in_app_or in Hin as [Hin|Hin]; [auto|].
    simpl in Hin. destruct Hin as [Hsp|Hin]; [now left; symmetry | auto].
Qed.

Lemma clean_line_no_LF line : ~ In LF (clean_line line).
Proof.
  intros Hin. apply clean_line_units in Hin as [Heq|Hws]; discriminate.
Qed.

Lemma map_fixed {A} (f : A -> A) (l : list A) :
  Forall (fun x => f x = x) l -> map f l = l.
Proof. induction 1; simpl; congruence. Qed.

Lemma filter_all {A} (p : A -> bool) (l : list A) :
  Forall (fun x => p x = true) l -> filter p l = l.
Proof.
  induction 1 as [|x l Hx _ IH]; simpl; [reflexivity|]. now rewrite Hx, IH.
Qed.

(** The lines that survive the cleanup. *)
Lemma kept_lines_clean text :
  Forall (fun l => truthy l = true /\ clean_line l = l /\ ~ In LF l)
         (filter truthy (map clean_line (split LF text))).
Proof.
  apply Forall_forall. intros l Hin.
  apply filter_In in Hin as [Hin Ht].
  apply in_map_iff in Hin as [l0 [<- _]].
  repeat split; [exact Ht | apply clean_line_idem | apply clean_line_no_LF].
Qed.

(** Cleaned text is left as it is by a second cleanup. *)
Lemma cleaned_fixed text : cleaned (cleaned text) = cleaned text.
Proof.
  unfold cleaned at 2 3. pose proof (kept_lines_clean text) as Hkept.
  destruct (filter truthy (map clean_line (split LF text))) as [|l ls] eqn:Hls;
    [reflexivity|].
  unfold cleaned. rewrite split_join.
  - rewrite map_fixed, filter_all; [reflexivity | |].
    + eapply Forall_impl; [|exact Hkept]. now intros ? [? _].
    + eapply Forall_impl; [|exact Hkept]. now intros ? [_ [? _]].
  - discriminate.
  - eapply Forall_impl; [|exact Hkept]. now intros ? [_ [_ ?]].
Qed.

Lemma cleaned_normalize text : cleaned text = normalize text.
Proof.
  unfold cleaned, normalize. do 2 f_equal.
  apply map_ext. intros line. apply clean_line_words.
Qed.

Lemma trimStart_visible c s : is_ws c = false -> trimStart (c :: s) = c :: s.
Proof. intros H. simpl. now rewrite H. Qed.

Lemma trimEnd_idem s : trimEnd (trimEnd s) = trimEnd s.
Proof.
  induction s as [|c r IH]; [reflexivity|].
  cbn [trimEnd]. destruct (trimEnd r) as [|x r'] eqn:Hr.
  - destruct (is_ws c) eqn:Hc; [reflexivity|]. cbn [trimEnd]. now rewrite Hc.
  - change (trimEnd (c :: x :: r'))
      with (match trimEnd (x :: r') with
            | [] => if is_ws c then [] else [c]
            | y :: r'' => c :: y :: r''
            end).
    now rewrite IH.
Qed.

(** Trimming the end keeps a visible start. *)
Lemma trimEnd_keeps_start s :
  match s with [] => True | c :: _ => is_ws c = false end ->
  match trimEnd s with [] => True | c :: _ => is_ws c = false end.
Proof.
  destruct s as [|c r]; [trivial|]. intros Hc.
  now rewrite (trimEnd_visible c r Hc).
Qed.

Lemma trimStart_visible_start s :
  match trimStart s with [] => True | c :: _ => is_ws c = false end.
Proof.
  induction s as [|c r IH]; [exact I|].
  simpl. destruct (is_ws c) eqn:Hc; [exact IH | exact Hc].
Qed.

Lemma trimStart_fixed s :
  match s with [] => True | c :: _ => is_ws c = false end -> trimStart s = s.
Proof. destruct s as [|c r]; [reflexivity|]. apply trimStart_visible. Qed.

(** A trimmed string is left as it is by [trim]. *)
Lemma trim_idem s : trim (trim s) = trim s.
Proof.
  unfold trim.
  rewrite (trimStart_fixed (trimEnd (trimStart s))).
  - apply trimEnd_idem.
  - apply trimEnd_keeps_start, trimStart_visible_start.
Qed.

End Cleanup.

(** C3. For every input, the cleanup of the scripts is the Text
    Normalizer of the specification: the input is split on line breaks,
    every line is reduced to its words separated by single spaces (runs
    of white space collapsed, ends trimmed), the lines left empty are
    dropped and the others are joined by single line breaks in their
    original order.  The words of a line are its runs of visible code
    units, in order.  On the sample of the specification the result is
    [a b] and [c] on two lines. *)
Theorem cleaned_is_normalize :
  (forall raw,
      cleaned raw = normalize raw
      /\ (forall line,
             clean_line line = join [SP] (words line)
             /\ forallb is_word (words line) = true
             /\ List.concat (words line) = filter (fun c => negb (is_ws c)) line))
  /\ cleaned (lit "a   b" ++ [LF; LF] ++ lit " c " ++ [LF])
     = lit "a b" ++ [LF] ++ lit "c".
Proof.
  split; [|reflexivity].
  intros raw. split; [apply cleaned_normalize|].
  intros line. repeat split.
  - apply clean_line_words.
  - apply words_are_words.
  - apply concat_words.
Qed.

(** C4. The Text Normalizer is idempotent: cleaning cleaned text changes
    nothing. *)
Theorem cleaned_idempotent :
  forall x, cleaned (cleaned x) = cleaned x.
Proof. exact cleaned_fixed. Qed.

(* ===================================================================== *)
(** * The renderers *)
(* ===================================================================== *)

Section Escaping.

Lemma replaceAll_app c rep a b :
  replaceAll c rep (a ++ b) = replaceAll c rep a ++ replaceAll c rep b.
Proof. apply flat_map_app. Qed.

Lemma replaceAll_flat_map c rep (f : char16 -> jsstring) s :
  replaceAll c rep (flat_map f s) = flat_map (fun x => replaceAll c rep (f x)) s.
Proof.
  induction s as [|x s IH]; [reflexivity|].
  simpl. now rewrite replaceAll_app, IH.
Qed.

Lemma replaceAll_other c rep x : (x =? c) = false -> replaceAll c rep [x] = [x].
Proof. intros H. unfold replaceAll. simpl. now rewrite H. Qed.

(** The five chained replacements act on each code unit on its own:
    no replacement rewrites what an earlier one produced. *)
Lemma escapeHtml_units s : escapeHtml s = flat_map escape_unit s.
Proof.
  unfold escapeHtml. unfold replaceAll at 5.
  rewrite !replaceAll_flat_map. apply flat_map_ext. intros x.
  unfold escape_unit.
  destruct (N.eqb_spec x 38) as [->|_]; [reflexivity|].
  destruct (x =? 60) eqn:H60;
    [apply N.eqb_eq in H60; subst; reflexivity|].
  rewrite (replaceAll_other 60 _ x H60).
  destruct (x =? 62) eqn:H62;
    [apply N.eqb_eq in H62; subst; reflexivity|].
  rewrite (replaceAll_other 62 _ x H62).
  destruct (x =? 34) eqn:H34;
    [apply N.eqb_eq in H34; subst; reflexivity|].
  rewrite (replaceAll_other 34 _ x H34).
  destruct (x =? 39) eqn:H39;
    [apply N.eqb_eq in H39; subst; reflexivity|].
  apply (replaceAll_other 39 _ x H39).
Qed.

Lemma well_escaped_unit c rest :
  well_escaped rest = true -> well_escaped (escape_unit c ++ rest) = true.
Proof.
  intros Hrest. unfold escape_unit.
  destruct (c =? 38) eqn:H38; [simpl; exact Hrest|].
  destruct (c =? 60) eqn:H60; [simpl; exact Hrest|].
  destruct (c =? 62) eqn:H62; [simpl; exact Hrest|].
  destruct (c =? 34) eqn:H34; [simpl; exact Hrest|].
  destruct (c =? 39) eqn:H39; [simpl; exact Hrest|].
  simpl. now rewrite H38, H60, H62, H34, H39.
Qed.

(** In escaped text the five characters occur only inside entities. *)
Lemma escapeHtml_well_escaped s : well_escaped (escapeHtml s) = true.
Proof.
  rewrite escapeHtml_units.
  induction s as [|c s IH]; [reflexivity|].
  simpl. now apply well_escaped_unit.
Qed.

End Escaping.

(** C9. For every article record, the plain-text renderer yields, in
    this order: the title line, left out altogether when the title is
    empty; the URL line; the separator line; and the body text, replaced
    by the fixed placeholder when it is empty. *)
Theorem output_layout :
  forall r : ArticleRecord,
    output (title r) (url r) (text r)
    = (if truthy (title r) then lit "TITLE: " ++ title r ++ [LF] else [])
      ++ lit "URL: " ++ url r ++ [LF]
      ++ lit "---" ++ [LF]
      ++ (if truthy (text r) then text r else no_text_placeholder).
Proof.
  intros [t u x f]. simpl. unfold output, or_else.
  destruct (truthy t) eqn:Ht, (truthy x) eqn:Hx;
    destruct t, x; try discriminate; simpl; rewrite <- ?app_assoc; reflexivity.
Qed.

(* ===================================================================== *)
(** * Computations *)
(* ===================================================================== *)

Section Computations.

(** A call whose rejection is caught and replaced by a value never
    throws. *)
Lemma catch_await {A} ev (s : settled A) (d : A) :
  catch (await ev s) (fun _ => ret d) = (Ok (recover d s), [ev]).
Proof. destruct s; reflexivity. Qed.

Lemma bind_assoc {A B C} (m : M A) (k : A -> M B) (h : B -> M C) :
  bind (bind m k) h = bind m (fun a => bind (k a) h).
Proof.
  destruct m as [[a|e] t]; [|reflexivity].
  simpl. destruct (k a) as [[b|e] t']; simpl; [|reflexivity].
  destruct (h b) as [r t'']. now rewrite app_assoc.
Qed.

(** ** What a computation leaves in its trace *)

Lemma emits_ret p {A} (a : A) : emits p (ret a).
Proof. reflexivity. Qed.

Lemma emits_throw p {A} e : emits p (@throw A e).
Proof. reflexivity. Qed.

Lemma emits_call p {A} (r : result A) : emits p (call r).
Proof. reflexivity. Qed.

Lemma emits_await p {A} ev (s : settled A) : p ev = true -> emits p (await ev s).
Proof. intros H. unfold emits. simpl. now rewrite H. Qed.

Lemma emits_emit p ev : p ev = true -> emits p (emit ev).
Proof. intros H. unfold emits. simpl. now rewrite H. Qed.

Lemma emits_bind p {A B} (m : M A) (k : A -> M B) :
  emits p m -> (forall a, emits p (k a)) -> emits p (bind m k).
Proof.
  unfold emits. destruct m as [[a|e] t]; simpl; intros Hm Hk; [|exact Hm].
  specialize (Hk a). destruct (k a) as [r t']. simpl in *.
  now rewrite forallb_app, Hm, Hk.
Qed.

Lemma emits_catch p {A} (m : M A) (h : error -> M A) :
  emits p m -> (forall e, emits p (h e)) -> emits p (catch m h).
Proof.
  unfold emits. destruct m as [[a|e] t]; simpl; intros Hm Hh; [exact Hm|].
  specialize (Hh e). destruct (h e) as [r t']. simpl in *.
  now rewrite forallb_app, Hm, Hh.
Qed.

End Computations.

Create HintDb trace discriminated.
#[local] Hint Resolve emits_ret emits_throw emits_call : trace.

(** Follows a computation through its binds, handlers and branches. *)
Ltac trace_steps :=
  repeat first
    [ solve [auto with trace]
    | apply emits_await; reflexivity
    | apply emits_emit; reflexivity
    | apply emits_bind; [|intros ?]
    | apply emits_catch; [|intros ?]
    | match goal with
      | |- emits _ (if ?b then _ else _) => destruct b
      | |- emits _ (match ?x with _ => _ end) => destruct x
      end ].

Section ScraperRun.

Variable w : World.

Lemma latestLink_steps : emits is_step (Scraper.latestLink w).
Proof. unfold Scraper.latestLink. trace_steps. Qed.

Lemma content_steps pg : emits is_step (Scraper.content pg).
Proof.
  unfold Scraper.content, Scraper.innerText_trimmed. cbv zeta. trace_steps.
Qed.

Lemma extraction_steps : emits is_step (Scraper.extraction w).
Proof.
  unfold Scraper.extraction. cbv zeta.
  apply emits_bind; [apply emits_await; reflexivity | intros _].
  apply emits_bind; [apply latestLink_steps | intros target].
  apply emits_bind; [apply emits_await; reflexivity | intros _].
  apply emits_bind; [apply content_steps | intros found].
  auto with trace.
Qed.

End ScraperRun.

(* ===================================================================== *)
(** * The Content Resolver *)
(* ===================================================================== *)

Section ContentResolver.

Lemma or_else_nil a : or_else a [] = a.
Proof. now destruct a. Qed.

Lemma fst_bind {A B} (m : M A) (k : A -> M B) :
  fst (bind m k) = match fst m with Ok a => fst (k a) | Throw e => Throw e end.
Proof. destruct m as [[a|e] t]; simpl; [now destruct (k a) | reflexivity]. Qed.

Lemma fst_innerText_trimmed sel l :
  fst (Scraper.innerText_trimmed sel l) = Ok (tier_text l 1).
Proof.
  unfold Scraper.innerText_trimmed, tier_text.
  rewrite catch_await. simpl. now destruct (loc_innerText l).
Qed.

Lemma tier_text_nonzero l n : nonzero n = true -> tier_text l n = tier_text l 1.
Proof. unfold tier_text. now intros ->. Qed.

Lemma tier_text_zero l n : nonzero n = false -> tier_text l n = [].
Proof. unfold tier_text. now intros ->. Qed.

(** A guarded tier, followed by the rest of the resolver. *)
Lemma fst_tier sel l text {B} (k : jsstring -> M B) :
  truthy text = false ->
  fst (bind (n <- await (Count sel) (loc_count l) ;;
             if nonzero n then Scraper.innerText_trimmed sel l else ret text) k)
  = match tier_result l text with Ok x => fst (k x) | Throw e => Throw e end.
Proof.
  intros Hempty. unfold tier_result. rewrite Hempty.
  rewrite fst_bind. rewrite fst_bind.
  destruct (loc_count l) as [n|d]; cbn [await fst]; [|reflexivity].
  destruct (nonzero n) eqn:Hn.
  - rewrite fst_innerText_trimmed. now rewrite (tier_text_nonzero l n Hn).
  - rewrite (tier_text_zero l n Hn). destruct text; [reflexivity | discriminate].
Qed.

Lemma fst_guarded_tier sel l text {B} (k : jsstring -> M B) :
  fst (bind (if negb (truthy text)
             then n <- await (Count sel) (loc_count l) ;;
                  if nonzero n then Scraper.innerText_trimmed sel l else ret text
             else ret text) k)
  = match tier_result l text with Ok x => fst (k x) | Throw e => Throw e end.
Proof.
  destruct (truthy text) eqn:Ht; cbn [negb].
  - unfold tier_result. rewrite Ht. now rewrite fst_bind.
  - now apply fst_tier.
Qed.

Lemma fst_first_tier sel l {B} (k : jsstring -> M B) :
  fst (n <- await (Count sel) (loc_count l) ;;
       text <- (if nonzero n then Scraper.innerText_trimmed sel l else ret []) ;;
       k text)
  = match tier_result l [] with Ok x => fst (k x) | Throw e => Throw e end.
Proof.
  rewrite <- (fst_tier sel l [] k eq_refl). now rewrite bind_assoc.
Qed.

(** The resolver, as a value. *)
Lemma content_value pg : fst (Scraper.content pg) = content_result pg.
Proof.
  unfold Scraper.content, content_result. cbv zeta.
  rewrite fst_bind, catch_await. cbn [fst].
  rewrite fst_bind, catch_await. cbn [fst].
  rewrite fst_bind, catch_await. cbn [fst].
  assert (Htitle : match recover None (pg_h1_textContent pg) with
                   | Some s => or_else (trim s) []
                   | None => []
                   end = title_of pg).
  { unfold title_of. destruct (pg_h1_textContent pg) as [[s|]|]; simpl;
      [apply or_else_nil | reflexivity | reflexivity]. }
  rewrite Htitle.
  rewrite fst_first_tier.
  destruct (tier_result (pg_article pg) []) as [t1|e]; [|reflexivity].
  rewrite fst_guarded_tier.
  destruct (tier_result (pg_content pg) t1) as [t2|e]; [|reflexivity].
  rewrite fst_guarded_tier.
  destruct (tier_result (pg_main pg) t2) as [t3|e]; reflexivity.
Qed.

(** The title never depends on the containers. *)
Lemma content_title pg found :
  fst (Scraper.content pg) = Ok found -> fst found = title_of pg.
Proof.
  rewrite content_value. unfold content_result.
  destruct (tier_result (pg_article pg) []) as [t1|e]; [|discriminate].
  destruct (tier_result (pg_content pg) t1) as [t2|e]; [|discriminate].
  destruct (tier_result (pg_main pg) t2) as [t3|e]; [|discriminate].
  now intros [= <-].
Qed.

Lemma content_result_counted pg n1 n2 n3 :
  loc_count (pg_article pg) = Ok n1 ->
  loc_count (pg_content pg) = Ok n2 ->
  loc_count (pg_main pg) = Ok n3 ->
  content_result pg
  = Ok (title_of pg,
        first_nonempty [tier_text (pg_article pg) n1;
                        tier_text (pg_content pg) n2;
                        tier_text (pg_main pg) n3]).
Proof.
  intros H1 H2 H3. unfold content_result, tier_result.
  rewrite H1. cbn [truthy first_nonempty].
  destruct (truthy (tier_text (pg_article pg) n1)) eqn:Ht1;
    [now destruct (tier_text (pg_article pg) n1)|].
  rewrite H2.
  destruct (truthy (tier_text (pg_content pg) n2)) eqn:Ht2;
    [now destruct (tier_text (pg_content pg) n2)|].
  rewrite H3.
  now destruct (tier_text (pg_main pg) n3).
Qed.

End ContentResolver.

(** C2 (amended). Provided the three container counts succeed, the
    Content Resolver returns a title and a text for every article page,
    also when the title read or the text read of a tier raises (such a
    tier counts as empty): the title is the trimmed first heading or the
    empty string, the text is the first non-empty one among the trimmed
    texts of the article container, the content-class container and the
    main region, in this order, else the empty string; a populated
    article container wins over whatever the content-class container
    holds. *)
Theorem content_resolver_fallback :
  forall pg n1 n2 n3,
    loc_count (pg_article pg) = Ok n1 ->
    loc_count (pg_content pg) = Ok n2 ->
    loc_count (pg_main pg) = Ok n3 ->
    let article_text := tier_text (pg_article pg) n1 in
    let content_text := tier_text (pg_content pg) n2 in
    let main_text := tier_text (pg_main pg) n3 in
    fst (Scraper.content pg)
    = Ok (title_of pg, first_nonempty [article_text; content_text; main_text])
    /\ first_nonempty [article_text; content_text; main_text]
       = (if truthy article_text then article_text
          else if truthy content_text then content_text
          else main_text).
Proof.
  intros pg n1 n2 n3 H1 H2 H3. cbv zeta.
  rewrite content_value, (content_result_counted pg n1 n2 n3 H1 H2 H3).
  split; [reflexivity|]. cbn [first_nonempty].
  destruct (truthy (tier_text (pg_article pg) n1)); [reflexivity|].
  destruct (truthy (tier_text (pg_content pg) n2)); [reflexivity|].
  now destruct (tier_text (pg_main pg) n3).
Qed.

(** On the sample page both containers are populated and the text of the
    article container is returned. *)
Lemma content_resolver_fallback_witness :
  loc_count (pg_article sample_page) = Ok 1%nat
  /\ loc_count (pg_content sample_page) = Ok 1%nat
  /\ loc_count (pg_main sample_page) = Ok 0%nat
  /\ fst (Scraper.content sample_page)
     = Ok (lit "Headline", lit "Line one" ++ [LF; LF] ++ lit "  Line two").
Proof.
  split; [reflexivity|]. split; [reflexivity|]. split; [reflexivity|].
  exact (proj1 (content_resolver_fallback sample_page 1 1 0
                  eq_refl eq_refl eq_refl)).
Defined.

(** C2 as stated fails: when the count of a container is rejected, the
    resolver raises instead of returning a pair. *)
Lemma content_resolver_raises :
  fst (Scraper.content vanishing_page) = Throw (DriverError TargetClosedError)
  /\ ~ (exists found, fst (Scraper.content vanishing_page) = Ok found).
Proof.
  split; [reflexivity|]. intros [found H]. discriminate H.
Qed.

(* ===================================================================== *)
(** * The run *)
(* ===================================================================== *)

Section MonadLaws.

Lemma bind_ext {A B} (m : M A) (k k' : A -> M B) :
  (forall a, k a = k' a) -> bind m k = bind m k'.
Proof. intros H. destruct m as [[a|e] t]; simpl; [now rewrite H | reflexivity]. Qed.

Lemma bind_ret_l {A B} (a : A) (k : A -> M B) : bind (ret a) k = k a.
Proof. unfold ret. simpl. now destruct (k a). Qed.

End MonadLaws.

Section Traces.

(** The events of the extraction are neither closes, nor reports, nor
    printed lines. *)
Lemma steps_trace t :
  forallb is_step t = true ->
  forallb (fun ev => negb (is_close ev)) t = true
  /\ reported t = [] /\ stdout t = [] /\ calls t = t.
Proof.
  induction t as [|ev t IH]; [now repeat split|].
  simpl. intros H. apply andb_prop in H as [Hev Ht].
  destruct (IH Ht) as [Hc [Hr [Ho Hk]]].
  unfold is_step in Hev.
  apply andb_prop in Hev as [Hev Hlog]. apply andb_prop in Hev as [Hclose Hrep].
  unfold calls in *. simpl. rewrite Hclose, Hlog, Hc, Hk.
  destruct ev; try discriminate; simpl; now rewrite ?Hr, ?Ho.
Qed.

Lemma reported_app t t' : reported (t ++ t') = reported t ++ reported t'.
Proof. apply flat_map_app. Qed.

Lemma stdout_app t t' : stdout (t ++ t') = stdout t ++ stdout t'.
Proof. apply flat_map_app. Qed.

Lemma calls_app t t' : calls (t ++ t') = calls t ++ calls t'.
Proof. apply filter_app. Qed.

End Traces.

Section Run.

Variable w : World.

(** ** The resolvers and the body of the [try], as values *)

Lemma latestLink_value : fst (Scraper.latestLink w) = latestLink_result w.
Proof.
  unfold Scraper.latestLink, latestLink_result.
  rewrite fst_bind. destruct (w_waitForSelector w) as [u|d]; cbn [await fst];
    [|reflexivity].
  rewrite fst_bind. destruct (w_getAttribute w) as [[href|]|d]; cbn [await fst];
    try reflexivity.
  now destruct (truthy href).
Qed.

Lemma extraction_value : fst (Scraper.extraction w) = extraction_result w.
Proof.
  unfold Scraper.extraction, extraction_result. cbv zeta.
  rewrite fst_bind. destruct (w_goto_home w) as [u|d]; cbn [await fst];
    [|reflexivity].
  rewrite fst_bind, latestLink_value.
  destruct (latestLink_result w) as [target|e]; [|reflexivity].
  rewrite fst_bind. destruct (w_goto_article w target) as [u'|d];
    cbn [await fst]; [|reflexivity].
  rewrite fst_bind, content_value.
  now destruct (content_result (w_article_page w target)).
Qed.

Lemma title_of_trimmed pg : trim (title_of pg) = title_of pg.
Proof.
  unfold title_of. destruct (pg_h1_textContent pg) as [[s|]|];
    [apply trim_idem | reflexivity | reflexivity].
Qed.

(** A record that the extraction returns is well formed. *)
Lemma extraction_record data :
  extraction_result w = Ok data ->
  trim (title data) = title data
  /\ cleaned (text data) = text data
  /\ fetchedAt data = w_now w
  /\ latestLink_result w = Ok (url data).
Proof.
  unfold extraction_result.
  destruct (w_goto_home w) as [u|d]; [|discriminate].
  destruct (latestLink_result w) as [target|e]; [|discriminate].
  destruct (w_goto_article w target) as [u'|d]; [|discriminate].
  destruct (content_result (w_article_page w target)) as [found|e] eqn:Hc;
    [|discriminate].
  intros [= <-]. cbn [title text fetchedAt url].
  rewrite <- content_value in Hc. apply content_title in Hc.
  rewrite Hc. repeat split; [apply title_of_trimmed | apply cleaned_fixed].
Qed.

(** ** The shape of a run once the session is acquired *)

Lemma scraper_run :
  acquired w ->
  Scraper.fetchLatestYleArticle w
  = match Scraper.extraction w with
    | (Ok data, t) => (Ok (Some data), opening ++ t ++ closing)
    | (Throw e, t) => (Ok None, opening ++ t ++ report e ++ closing)
    end.
Proof.
  intros [H1 [H2 H3]]. unfold Scraper.fetchLatestYleArticle.
  rewrite H1, H2, H3.
  destruct (Scraper.extraction w) as [[data|e] t];
    destruct (w_close_page w), (w_close_context w), (w_close_browser w);
    cbn; rewrite <- ?app_assoc, ?app_nil_r; reflexivity.
Qed.

(** The sibling script runs the same extraction and prints its summary
    where [scraper.js] returns the record. *)
Lemma part000_body :
  Part000.fetchLatestYleArticle w
  = (await Launch (w_launch w) ;;
     await NewContext (w_newContext w) ;;
     await NewPage (w_newPage w) ;;
     finally
       (catch (data <- Scraper.extraction w ;; print_summary data)
              (fun error =>
                 emit (ConsoleError (lit "Scrape failed:") error) ;;
                 emit (SetExitCode 1)))
       (catch (await (Close Page) (w_close_page w)) (fun _ => ret tt) ;;
        catch (await (Close Context) (w_close_context w)) (fun _ => ret tt) ;;
        catch (await (Close Browser) (w_close_browser w)) (fun _ => ret tt))).
Proof.
  unfold Part000.fetchLatestYleArticle.
  do 3 (apply bind_ext; intros ?).
  f_equal. f_equal.
  unfold Scraper.extraction, Scraper.latestLink, Scraper.content,
    Scraper.innerText_trimmed, print_summary. cbv zeta.
  repeat (rewrite ?bind_assoc; apply bind_ext; intros ?).
  match goal with attribute : option jsstring |- _ =>
    destruct attribute as [href|]; [|reflexivity] end.
  destruct (truthy href); cbn [negb]; [|reflexivity].
  rewrite bind_ret_l. unfold Scraper.targetUrl, call.
  destruct (startsWith (lit "http") href).
  - apply (bind_ext (ret href)). intros target.
    repeat (rewrite ?bind_assoc; apply bind_ext; intros ?).
    now rewrite !bind_ret_l.
  - destruct (w_URL w href base_origin) as [u|]; [|reflexivity].
    apply (bind_ext (ret u)). intros target.
    repeat (rewrite ?bind_assoc; apply bind_ext; intros ?).
    now rewrite !bind_ret_l.
Qed.

Lemma part000_run :
  acquired w ->
  Part000.fetchLatestYleArticle w
  = match Scraper.extraction w with
    | (Ok data, t) =>
        (Ok tt, opening ++ t
                ++ [ConsoleLog (output (title data) (url data) (text data))]
                ++ closing)
    | (Throw e, t) => (Ok tt, opening ++ t ++ report e ++ closing)
    end.
Proof.
  intros [H1 [H2 H3]]. rewrite part000_body.
  rewrite H1, H2, H3. unfold print_summary.
  destruct (Scraper.extraction w) as [[data|e] t];
    destruct (w_close_page w), (w_close_context w), (w_close_browser w);
    cbn; rewrite <- ?app_assoc, ?app_nil_r; reflexivity.
Qed.

(** Without a session both scripts stop where the acquisition fails. *)
Lemma unacquired_run :
  ~ acquired w ->
  exists e t,
    Scraper.fetchLatestYleArticle w = (Throw e, t)
    /\ Part000.fetchLatestYleArticle w = (Throw e, t)
    /\ stdout t = [] /\ reported t = [] /\ calls t = t.
Proof.
  intros Hn. rewrite part000_body. unfold Scraper.fetchLatestYleArticle.
  destruct (w_launch w) as [[]|d1] eqn:H1;
    [|exists (DriverError d1), [Launch]; now repeat split].
  destruct (w_newContext w) as [[]|d2] eqn:H2;
    [|exists (DriverError d2), [Launch; NewContext]; now repeat split].
  destruct (w_newPage w) as [[]|d3] eqn:H3;
    [|exists (DriverError d3), [Launch; NewContext; NewPage]; now repeat split].
  exfalso. apply Hn. now repeat split.
Qed.

Lemma acquired_dec : acquired w \/ ~ acquired w.
Proof.
  unfold acquired.
  destruct (w_launch w) as [[]|]; [|right; now intros [H _]].
  destruct (w_newContext w) as [[]|]; [|right; now intros [_ [H _]]].
  destruct (w_newPage w) as [[]|]; [|right; now intros [_ [_ H]]].
  now left.
Qed.

End Run.

(* ===================================================================== *)
(** * The Latest-Link Resolver *)
(* ===================================================================== *)

Section TargetUrl.

Lemma startsWith_app p s : startsWith p s = true -> exists r, s = p ++ r.
Proof.
  revert s. induction p as [|x p IH]; intros s H; [now exists s|].
  destruct s as [|y s]; [discriminate|].
  simpl in H. apply andb_prop in H as [Hxy Hp].
  apply N.eqb_eq in Hxy. subst y.
  destruct (IH s Hp) as [r ->]. now exists r.
Qed.

Lemma plain_path_not_http href :
  plain_path href = true -> startsWith (lit "http") href = false.
Proof.
  destruct href as [|c r]; [discriminate|]. simpl.
  destruct (N.eqb_spec c 47) as [->|_]; [reflexivity | discriminate].
Qed.

Lemma forallb_weaken {A} (p q : A -> bool) l :
  (forall x, p x = true -> q x = true) -> forallb p l = true -> forallb q l = true.
Proof.
  intros Hpq. induction l as [|x l IH]; [reflexivity|].
  cbn [forallb]. intros H. apply andb_prop in H as [Hx Hl].
  now rewrite (Hpq x Hx), IH.
Qed.

Lemma is_lower_bounds x : is_lower x = true -> 97 <= x <= 122.
Proof.
  unfold is_lower. intros H. apply andb_prop in H as [H1 H2].
  apply N.leb_le in H1, H2. lia.
Qed.

Lemma url_unit_bounds x : 33 <= x <= 126 -> x <> 60 -> x <> 62 -> url_unit x = true.
Proof.
  intros [H1 H2] H60 H62. unfold url_unit.
  apply N.leb_le in H1, H2. apply N.eqb_neq in H60, H62.
  now rewrite H1, H2, H60, H62.
Qed.

Lemma host_unit_url x : is_lower x || (x =? 46) = true -> url_unit x = true.
Proof.
  intros H. apply orb_prop in H as [H|H].
  - apply is_lower_bounds in H. apply url_unit_bounds; lia.
  - apply N.eqb_eq in H. now subst.
Qed.

Lemma path_unit_url x :
  is_alpha x || is_digit x || (x =? 47) || (x =? 45) || (x =? 95) || (x =? 126)
  = true ->
  url_unit x = true.
Proof.
  unfold is_alpha, is_digit. intros H.
  repeat (apply orb_prop in H as [H|H]);
    try (apply N.eqb_eq in H; now subst);
    apply andb_prop in H as [H1 H2]; apply N.leb_le in H1, H2;
    apply url_unit_bounds; lia.
Qed.

(** A plain origin followed by a path of plain units is a well-formed
    web address. *)
Lemma plain_origin_url o tail :
  plain_origin o = true ->
  forallb url_unit tail = true ->
  is_url (o ++ tail) = true.
Proof.
  unfold plain_origin. intros H Htail. apply andb_prop in H as [Hpre Hhost].
  apply startsWith_app in Hpre as [host ->].
  change (skipn 8 (lit "https://" ++ host)) with host in Hhost.
  destruct host as [|c host]; [discriminate|].
  apply andb_prop in Hhost as [Hhost _]. apply andb_prop in Hhost as [Hc Hall].
  rewrite <- app_assoc.
  change (is_url (lit "https://" ++ (c :: host) ++ tail))
    with (authority_start c && forallb url_unit (host ++ tail)).
  rewrite forallb_app, Htail, (forallb_weaken _ url_unit host host_unit_url Hall).
  apply is_lower_bounds in Hc. unfold authority_start.
  rewrite url_unit_bounds by lia.
  assert (Hne : forall k, k < 97 -> (c =? k) = false)
    by (intros k Hk; apply N.eqb_neq; lia).
  now rewrite !Hne by lia.
Qed.

Lemma plain_path_units href : plain_path href = true -> forallb url_unit href = true.
Proof.
  destruct href as [|c r]; [discriminate|]. cbn [plain_path forallb].
  intros H. apply andb_prop in H as [H Hr]. apply andb_prop in H as [Hc _].
  apply N.eqb_eq in Hc. subst c.
  now rewrite (forallb_weaken _ url_unit r path_unit_url Hr).
Qed.

Lemma plain_relative_units href :
  plain_relative href = true -> forallb url_unit href = true.
Proof.
  destruct href as [|c r]; [discriminate|]. cbn [plain_relative forallb].
  intros H. apply andb_prop in H as [Hc Hr].
  rewrite (forallb_weaken _ url_unit r path_unit_url Hr).
  rewrite path_unit_url; [reflexivity|]. now rewrite Hc.
Qed.

(** The stand-ins keep the guarantees of the standard. *)
Lemma URL_plain_standard : URLStandard URL_plain.
Proof.
  split.
  - intros href base u. unfold URL_plain.
    destruct (plain_path href) eqn:Hp; [|discriminate].
    destruct (plain_origin base) eqn:Ho; [|discriminate].
    intros [= <-]. apply plain_origin_url; [exact Ho|].
    now apply plain_path_units.
  - intros href origin Hp Ho. unfold URL_plain. now rewrite Hp, Ho.
Qed.

Lemma URL_relative_standard : URLStandard URL_relative.
Proof.
  split.
  - intros href base u. unfold URL_relative.
    destruct (plain_origin base) eqn:Ho; [|discriminate].
    destruct (plain_path href) eqn:Hp.
    + intros [= <-]. apply plain_origin_url; [exact Ho|].
      now apply plain_path_units.
    + destruct (plain_relative href) eqn:Hr; [|discriminate].
      intros [= <-]. apply plain_origin_url; [exact Ho|].
      cbn [app forallb]. now rewrite (plain_relative_units href Hr).
  - intros href origin Hp Ho. unfold URL_relative. now rewrite Hp, Ho.
Qed.

(** A returned record holds the resolved link, and the driver loaded it. *)
Lemma returned_record_link w data :
  fst (Scraper.fetchLatestYleArticle w) = Ok (Some data) ->
  latestLink_result w = Ok (url data) /\ w_goto_article w (url data) = Ok tt.
Proof.
  intros Hrun.
  assert (Hacq : acquired w).
  { destruct (acquired_dec w) as [H|H]; [exact H|].
    destruct (unacquired_run w H) as [e [t [Hs _]]].
    rewrite Hs in Hrun. discriminate Hrun. }
  rewrite (scraper_run w Hacq) in Hrun.
  pose proof (extraction_value w) as Hv.
  destruct (Scraper.extraction w) as [[data'|e] t]; cbn [fst] in Hrun, Hv;
    [|discriminate Hrun].
  injection Hrun as ->. symmetry in Hv. unfold extraction_result in Hv.
  destruct (w_goto_home w) as [[]|d]; [|discriminate Hv].
  destruct (latestLink_result w) as [target|e]; [|discriminate Hv].
  destruct (w_goto_article w target) as [[]|d] eqn:Hgoto; [|discriminate Hv].
  destruct (content_result (w_article_page w target)) as [found|e];
    [|discriminate Hv].
  injection Hv as <-. now split.
Qed.

End TargetUrl.

(** C5 (amended). For every href that the Latest-Link Resolver accepts:
    the resolver returns the href unchanged when it starts with [http],
    whatever follows, and otherwise what the URL constructor makes of it
    against the fixed origin of the site, failing when the constructor
    throws.  So its result is a well-formed absolute URL when it was
    resolved, and for a kept href exactly when the href itself is one.
    A plain path is appended to the origin of the site.  The url of a
    returned record is this result, and the driver loaded it. *)
Theorem targetUrl_resolution :
  forall w href,
    URLStandard (w_URL w) ->
    w_waitForSelector w = Ok tt ->
    w_getAttribute w = Ok (Some href) ->
    truthy href = true ->
    (forall u, fst (Scraper.latestLink w) = Ok u
               <-> (if startsWith (lit "http") href then u = href
                    else w_URL w href base_origin = Some u))
    /\ (fst (Scraper.latestLink w) = Throw InvalidURLError
        <-> startsWith (lit "http") href = false
            /\ w_URL w href base_origin = None)
    /\ (forall u, fst (Scraper.latestLink w) = Ok u ->
                  (is_url u = true
                   <-> startsWith (lit "http") href = false
                       \/ is_url href = true))
    /\ (plain_path href = true ->
        fst (Scraper.latestLink w) = Ok (base_origin ++ href)
        /\ is_url (base_origin ++ href) = true)
    /\ (forall data,
           fst (Scraper.fetchLatestYleArticle w) = Ok (Some data) ->
           fst (Scraper.latestLink w) = Ok (url data)
           /\ w_goto_article w (url data) = Ok tt).
Proof.
  intros w href Hstd Hwait Hattr Htruthy.
  assert (Hlink : fst (Scraper.latestLink w)
                  = if startsWith (lit "http") href then Ok href
                    else match w_URL w href base_origin with
                         | Some u => Ok u
                         | None => Throw InvalidURLError
                         end).
  { rewrite latestLink_value. unfold latestLink_result, Scraper.targetUrl.
    now rewrite Hwait, Hattr, Htruthy. }
  split; [|split; [|split; [|split]]].
  - intros u. rewrite Hlink.
    destruct (startsWith (lit "http") href).
    + split; [now intros [= <-] | now intros ->].
    + destruct (w_URL w href base_origin) as [u'|].
      * split; [now intros [= <-] | now intros [= <-]].
      * split; discriminate.
  - rewrite Hlink. destruct (startsWith (lit "http") href).
    + split; [discriminate | now intros [H _]].
    + destruct (w_URL w href base_origin) as [u'|].
      * split; [discriminate | now intros [_ H]].
      * now split.
  - intros u. rewrite Hlink.
    destruct (startsWith (lit "http") href).
    + intros [= <-]. split; [now right | now intros [H|H]].
    + destruct (w_URL w href base_origin) as [u'|] eqn:Hurl; [|discriminate].
      intros [= <-]. split; [now left|].
      intros _. exact (URL_wellformed _ Hstd _ _ _ Hurl).
  - intros Hp. rewrite Hlink, (plain_path_not_http href Hp).
    rewrite (URL_plain_path _ Hstd href base_origin Hp eq_refl).
    split; [reflexivity|].
    apply plain_origin_url; [reflexivity | now apply plain_path_units].
  - intros data Hrun. rewrite latestLink_value.
    now apply returned_record_link.
Qed.

(** On a homepage whose first link is the plain path [/a/123], the
    resolver returns that path appended to the origin of the site. *)
Lemma targetUrl_resolution_witness :
  URLStandard (w_URL (world_with [Some (lit "/a/123")]))
  /\ w_waitForSelector (world_with [Some (lit "/a/123")]) = Ok tt
  /\ w_getAttribute (world_with [Some (lit "/a/123")]) = Ok (Some (lit "/a/123"))
  /\ truthy (lit "/a/123") = true
  /\ fst (Scraper.latestLink (world_with [Some (lit "/a/123")]))
     = Ok (lit "https://yle.fi/a/123")
  /\ is_url (lit "https://yle.fi/a/123") = true.
Proof.
  split; [exact URL_plain_standard|].
  split; [reflexivity|]. split; [reflexivity|]. split; [reflexivity|].
  destruct (targetUrl_resolution (world_with [Some (lit "/a/123")]) (lit "/a/123")
              URL_plain_standard eq_refl eq_refl eq_refl)
    as [_ [_ [_ [Hplain _]]]].
  exact (Hplain eq_refl).
Defined.

(** C5 as stated fails: an href that merely starts with [http] is
    accepted and returned as it is.  It is no absolute URL, and it is not
    resolved against the origin of the site, although the platform would
    resolve it; the script asks the driver to load it as it is. *)
Lemma targetUrl_not_absolute :
  URLStandard (w_URL kept_href_world)
  /\ w_getAttribute kept_href_world = Ok (Some (lit "httpx/a"))
  /\ w_URL kept_href_world (lit "httpx/a") base_origin
     = Some (lit "https://yle.fi/httpx/a")
  /\ fst (Scraper.latestLink kept_href_world) = Ok (lit "httpx/a")
  /\ is_url (lit "httpx/a") = false
  /\ gotos (snd (Scraper.fetchLatestYleArticle kept_href_world))
     = [home_url; lit "httpx/a"]
  /\ fst (Scraper.fetchLatestYleArticle kept_href_world) = Ok None.
Proof.
  split; [exact URL_relative_standard|].
  repeat (split; [reflexivity|]). reflexivity.
Qed.

(** C6 (amended). In a run whose session is acquired and whose homepage
    loads, the Latest-Link Resolver fails with NotFound exactly when the
    wait for a marker element succeeds and the link attribute of the
    first one is absent or empty.  On a homepage without any matching
    element the bounded wait fails and the resolver fails with the
    Timeout of the driver, not with NotFound.  Whatever the failure of
    the resolver, the orchestrator reports it and returns null. *)
Theorem latestLink_failures :
  forall w,
    acquired w ->
    w_goto_home w = Ok tt ->
    (fst (Scraper.latestLink w) = Throw NoHrefError
     <-> w_waitForSelector w = Ok tt
         /\ (w_getAttribute w = Ok None \/ w_getAttribute w = Ok (Some [])))
    /\ (forall d, w_waitForSelector w = Throw d ->
                  fst (Scraper.latestLink w) = Throw (DriverError d))
    /\ (w_waitForSelector w = wait_on [] ->
        fst (Scraper.latestLink w) = Throw (DriverError TimeoutError))
    /\ (forall e, fst (Scraper.latestLink w) = Throw e ->
                  fst (Scraper.fetchLatestYleArticle w) = Ok None
                  /\ reported (snd (Scraper.fetchLatestYleArticle w)) = [e]).
Proof.
  intros w Hacq Hhome. rewrite latestLink_value.
  split; [|split; [|split]].
  - unfold latestLink_result, Scraper.targetUrl. split.
    + destruct (w_waitForSelector w) as [[]|d]; [|discriminate].
      destruct (w_getAttribute w) as [[href|]|d]; try discriminate.
      * destruct href as [|c r]; [now auto|]. cbn [truthy].
        destruct (startsWith (lit "http") (c :: r)); [discriminate|].
        destruct (w_URL w (c :: r) base_origin); discriminate.
      * now auto.
    + intros [-> [-> | ->]]; reflexivity.
  - intros d Hd. unfold latestLink_result. now rewrite Hd.
  - intros Hw. unfold latestLink_result. now rewrite Hw.
  - intros e He.
    rewrite (scraper_run w Hacq).
    pose proof (extraction_value w) as Hv.
    pose proof (extraction_steps w) as Hs. unfold emits in Hs.
    unfold extraction_result in Hv. rewrite Hhome, He in Hv.
    destruct (Scraper.extraction w) as [r t]. cbn [fst snd] in Hv, Hs. subst r.
    destruct (steps_trace t Hs) as [_ [Hr _]].
    split; [reflexivity|]. cbn [snd].
    now rewrite !reported_app, Hr.
Qed.

(** On the sample homepage without its href the resolver fails with
    NotFound, and the run returns null. *)
Lemma latestLink_failures_witness :
  acquired (world_with [None])
  /\ w_goto_home (world_with [None]) = Ok tt
  /\ fst (Scraper.latestLink (world_with [None])) = Throw NoHrefError
  /\ fst (Scraper.fetchLatestYleArticle (world_with [None])) = Ok None.
Proof.
  split; [repeat split|]. split; [reflexivity|].
  destruct (latestLink_failures (world_with [None])
              (conj eq_refl (conj eq_refl eq_refl)) eq_refl)
    as [[_ Hnotfound] [_ [_ Hnull]]].
  assert (H : fst (Scraper.latestLink (world_with [None])) = Throw NoHrefError)
    by (apply Hnotfound; split; [reflexivity | left; reflexivity]).
  split; [exact H | exact (proj1 (Hnull _ H))].
Defined.

(** C6 as stated fails: on a homepage without any matching element the
    resolver fails with the Timeout of the wait, which is not NotFound;
    the run still returns null. *)
Lemma latestLink_timeout_not_notfound :
  w_waitForSelector (world_with []) = wait_on []
  /\ fst (Scraper.latestLink (world_with [])) = Throw (DriverError TimeoutError)
  /\ fst (Scraper.latestLink (world_with [])) <> Throw NoHrefError
  /\ Scraper.fetchLatestYleArticle (world_with [])
     = (Ok None,
        opening ++ [Goto home_url; WaitForSelector sel_link]
        ++ report (DriverError TimeoutError) ++ closing).
Proof.
  split; [reflexivity|]. split; [reflexivity|].
  split; [discriminate | reflexivity].
Qed.

(* ===================================================================== *)
(** * The Extraction Orchestrator *)
(* ===================================================================== *)

(** C7 (amended). Once the session of a run is acquired, the run never
    throws: [scraper.js] returns either a complete record or null, and
    [part_000] returns after printing either the summary or nothing.
    A returned record is well formed: its title is trimmed, its text is
    cleaned, its url is the one the Latest-Link Resolver produced and its
    time stamp is the clock's; nothing is reported then.  On a failure
    of any step of the extraction, exactly that error is reported, the
    exit code is set, and the result is null. *)
Theorem run_is_atomic :
  forall w,
    acquired w ->
    exists returned t t',
      Scraper.fetchLatestYleArticle w = (Ok returned, t)
      /\ Part000.fetchLatestYleArticle w = (Ok tt, t')
      /\ match returned with
         | Some data =>
             fst (Scraper.extraction w) = Ok data
             /\ trim (title data) = title data
             /\ cleaned (text data) = text data
             /\ fetchedAt data = w_now w
             /\ fst (Scraper.latestLink w) = Ok (url data)
             /\ reported t = [] /\ reported t' = []
             /\ stdout t' = [output (title data) (url data) (text data)]
         | None =>
             exists e,
               fst (Scraper.extraction w) = Throw e
               /\ reported t = [e] /\ reported t' = [e]
               /\ In (SetExitCode 1) t /\ In (SetExitCode 1) t'
               /\ stdout t' = []
         end.
Proof.
  intros w Hacq.
  rewrite (scraper_run w Hacq), (part000_run w Hacq).
  pose proof (extraction_value w) as Hv.
  pose proof (extraction_steps w) as Hs. unfold emits in Hs.
  destruct (Scraper.extraction w) as [[data|e] t]; cbn [fst snd] in Hv, Hs;
    destruct (steps_trace t Hs) as [_ [Hr [Ho _]]].
  - do 3 eexists. split; [reflexivity|]. split; [reflexivity|]. cbn iota.
    symmetry in Hv. destruct (extraction_record w data Hv) as [Ht [Hx [Hf Hu]]].
    rewrite latestLink_value.
    repeat split; try assumption.
    + now rewrite !reported_app, Hr.
    + now rewrite !reported_app, Hr.
    + now rewrite !stdout_app, Ho.
  - do 3 eexists. split; [reflexivity|]. split; [reflexivity|]. cbn iota.
    exists e. repeat split.
    + now rewrite !reported_app, Hr.
    + now rewrite !reported_app, Hr.
    + apply in_or_app. right. apply in_or_app. right.
      apply in_or_app. left. right. now left.
    + apply in_or_app. right. apply in_or_app. right.
      apply in_or_app. left. right. now left.
    + now rewrite !stdout_app, Ho.
Qed.

(** The sample run returns the record of the end-to-end scenario. *)
Lemma run_is_atomic_witness :
  acquired sample_world
  /\ exists t,
       Scraper.fetchLatestYleArticle sample_world
       = (Ok (Some {| title := lit "Headline";
                      url := lit "https://yle.fi/b/2";
                      text := lit "Line one" ++ [LF] ++ lit "Line two";
                      fetchedAt := lit "2024-05-01T10:00:00.000Z" |}), t)
       /\ reported t = [].
Proof.
  split; [repeat split|].
  destruct (run_is_atomic sample_world (conj eq_refl (conj eq_refl eq_refl)))
    as [returned [t [t' [Hrun [_ Hshape]]]]].
  exists t.
  assert (Hret : returned
                 = Some {| title := lit "Headline";
                           url := lit "https://yle.fi/b/2";
                           text := lit "Line one" ++ [LF] ++ lit "Line two";
                           fetchedAt := lit "2024-05-01T10:00:00.000Z" |}).
  { assert (H : fst (Scraper.fetchLatestYleArticle sample_world) = Ok returned)
      by now rewrite Hrun.
    vm_compute in H. now injection H as <-. }
  subst returned. split; [exact Hrun|].
  now destruct Hshape as [_ [_ [_ [_ [_ [Hrep _]]]]]].
Defined.

(** C7 as stated fails: when the browser cannot be started, the error
    leaves the orchestrator: the run neither returns a record nor null. *)
Lemma run_throws_without_browser :
  Scraper.fetchLatestYleArticle no_browser_world
  = (Throw (DriverError LaunchError), [Launch])
  /\ ~ (exists returned,
           fst (Scraper.fetchLatestYleArticle no_browser_world) = Ok returned)
  /\ reported (snd (Scraper.fetchLatestYleArticle no_browser_world)) = [].
Proof.
  split; [reflexivity|]. split; [|reflexivity].
  intros [returned H]. discriminate H.
Qed.

(** C8 (amended). Once the session of a run is acquired, on every exit
    path of both scripts (a returned record, a failure of any step, a
    rejected close) the run returns, and the last calls it made are the
    closes of page, context and browser, in this order; nothing is
    closed before. *)
Theorem session_released :
  forall w,
    acquired w ->
    (exists returned, fst (Scraper.fetchLatestYleArticle w) = Ok returned)
    /\ released (snd (Scraper.fetchLatestYleArticle w))
    /\ fst (Part000.fetchLatestYleArticle w) = Ok tt
    /\ released (snd (Part000.fetchLatestYleArticle w)).
Proof.
  intros w Hacq.
  rewrite (scraper_run w Hacq), (part000_run w Hacq).
  pose proof (extraction_steps w) as Hs. unfold emits in Hs.
  destruct (Scraper.extraction w) as [[data|e] t]; cbn [fst snd] in Hs |- *;
    destruct (steps_trace t Hs) as [Hc _].
  - split; [now eexists|]. split; [|split; [reflexivity|]].
    + exists (opening ++ t). split; [now rewrite app_assoc|].
      now rewrite forallb_app, Hc.
    + exists (opening ++ t
              ++ [ConsoleLog (output (title data) (url data) (text data))]).
      split; [now rewrite <- !app_assoc|].
      now rewrite !forallb_app, Hc.
  - split; [now eexists|]. split; [|split; [reflexivity|]].
    + exists (opening ++ t ++ report e). split; [now rewrite <- !app_assoc|].
      now rewrite !forallb_app, Hc.
    + exists (opening ++ t ++ report e). split; [now rewrite <- !app_assoc|].
      now rewrite !forallb_app, Hc.
Qed.

(** A run in which the article fails to load, and the page refuses to
    close, still releases its session. *)
Lemma session_released_witness :
  acquired article_unreachable_world
  /\ fst (Scraper.fetchLatestYleArticle article_unreachable_world) = Ok None
  /\ released (snd (Scraper.fetchLatestYleArticle article_unreachable_world)).
Proof.
  split; [repeat split|]. split; [reflexivity|].
  exact (proj1 (proj2 (session_released article_unreachable_world
                         (conj eq_refl (conj eq_refl eq_refl))))).
Defined.

(** C8 as stated fails: when the browser starts but no context can be
    opened, the run ends without closing the browser. *)
Lemma browser_left_open :
  Scraper.fetchLatestYleArticle no_context_world
  = (Throw (DriverError TargetClosedError), [Launch; NewContext])
  /\ ~ In (Close Browser) (snd (Scraper.fetchLatestYleArticle no_context_world))
  /\ ~ released (snd (Scraper.fetchLatestYleArticle no_context_world)).
Proof.
  split; [reflexivity|]. split.
  - cbn. intros [H|[H|[]]]; discriminate H.
  - intros [before [H _]]. cbn in H.
    destruct before as [|e1 [|e2 [|e3 rest]]]; discriminate H.
Qed.

(* ===================================================================== *)
(** * The two scripts *)
(* ===================================================================== *)

(** C10. On every environment the two scripts run the same extraction:
    they make the same calls in the same order with the same outcome,
    report the same errors, and [part_000] prints exactly the plain-text
    summary that [scraper.js], started without an output path, prints of
    the record it returns, whose title, url and text are thus the ones
    [part_000] computed; when no record is returned neither prints. *)
Theorem scripts_agree :
  forall w,
    fst (Part000.main w) = fst (Scraper.main None w)
    /\ stdout (snd (Part000.main w)) = stdout (snd (Scraper.main None w))
    /\ calls (snd (Part000.main w)) = calls (snd (Scraper.main None w))
    /\ reported (snd (Part000.main w)) = reported (snd (Scraper.main None w))
    /\ calls (snd (Part000.main w)) = snd (Scraper.fetchLatestYleArticle w)
    /\ stdout (snd (Part000.main w))
       = match fst (Scraper.fetchLatestYleArticle w) with
         | Ok (Some data) => [output (title data) (url data) (text data)]
         | _ => []
         end.
Proof.
  intros w. unfold Part000.main, Scraper.main.
  destruct (acquired_dec w) as [Hacq|Hnot].
  - rewrite (scraper_run w Hacq), (part000_run w Hacq).
    pose proof (extraction_steps w) as Hs. unfold emits in Hs.
    destruct (Scraper.extraction w) as [[data|e] t]; cbn [fst snd] in Hs;
      destruct (steps_trace t Hs) as [_ [Hr [Ho Hk]]];
      cbn [bind ret emit fst snd];
      rewrite ?app_nil_r, ?stdout_app, ?calls_app, ?reported_app, ?Hr, ?Ho, ?Hk;
      unfold calls, opening, closing, report;
      cbn [filter is_log negb app flat_map stdout reported];
      rewrite ?app_nil_r, <- ?app_assoc;
      repeat split.
  - destruct (unacquired_run w Hnot) as [e [t [Hs [Hp [Ho [Hr Hk]]]]]].
    rewrite Hs, Hp. cbn [bind fst snd]. rewrite Ho, Hk.
    repeat split.
Qed.

(* ===================================================================== *)
(** * Further properties of [escapeHtml] *)
(* ===================================================================== *)

Section EscapingFurther.

Lemma escape_unit_plain c : is_special c = false -> escape_unit c = [c].
Proof.
  unfold is_special, escape_unit. intros H.
  repeat (apply orb_false_elim in H as [H ?]).
  now repeat match goal with Hc : (_ =? _) = false |- _ => rewrite Hc; clear Hc end.
Qed.

(** A special character becomes an entity: an ampersand and more. *)
Lemma escape_unit_special c :
  is_special c = true -> exists body, body <> [] /\ escape_unit c = 38 :: body.
Proof.
  unfold is_special, escape_unit. intros H.
  destruct (c =? 38); [now eexists|].
  destruct (c =? 60); [now eexists|].
  destruct (c =? 62); [now eexists|].
  destruct (c =? 34); [now eexists|].
  destruct (c =? 39); [now eexists | discriminate].
Qed.

Lemma unescape_unit c rest :
  unescape_from 0 (escape_unit c ++ rest) = c :: unescape_from 0 rest.
Proof.
  unfold escape_unit.
  destruct (N.eqb_spec c 38) as [->|H38]; [reflexivity|].
  destruct (N.eqb_spec c 60) as [->|H60]; [reflexivity|].
  destruct (N.eqb_spec c 62) as [->|H62]; [reflexivity|].
  destruct (N.eqb_spec c 34) as [->|H34]; [reflexivity|].
  destruct (N.eqb_spec c 39) as [->|H39]; [reflexivity|].
  cbn [app unescape_from]. apply N.eqb_neq in H38. now rewrite H38.
Qed.

Lemma unescape_escape s : unescapeHtml (escapeHtml s) = s.
Proof.
  unfold unescapeHtml. rewrite escapeHtml_units.
  induction s as [|c s IH]; [reflexivity|].
  cbn [flat_map]. now rewrite unescape_unit, IH.
Qed.

Lemma escapeHtml_app a b : escapeHtml (a ++ b) = escapeHtml a ++ escapeHtml b.
Proof. rewrite !escapeHtml_units. apply flat_map_app. Qed.

Lemma escape_unit_no_LF c : c <> LF -> ~ In LF (escape_unit c).
Proof.
  intros Hc. unfold escape_unit.
  destruct (c =? 38); [cbn; intuition discriminate|].
  destruct (c =? 60); [cbn; intuition discriminate|].
  destruct (c =? 62); [cbn; intuition discriminate|].
  destruct (c =? 34); [cbn; intuition discriminate|].
  destruct (c =? 39); [cbn; intuition discriminate|].
  cbn. intuition congruence.
Qed.

(** Text without the separator in front of a string joins its first piece. *)
Lemma split_app_without c a r :
  ~ In c a ->
  split c (a ++ r)
  = match split c r with
    | l :: ls => (a ++ l) :: ls
    | [] => [a]
    end.
Proof.
  induction a as [|x a IH]; intros Hn.
  - cbn [app]. destruct (split c r) eqn:Hs; [|reflexivity].
    destruct r as [|y r]; cbn in Hs; [discriminate|].
    destruct (y =? c); [discriminate|]. destruct (split c r); discriminate.
  - cbn [app split]. destruct (N.eqb_spec x c) as [->|_].
    + exfalso. apply Hn. now left.
    + rewrite IH by (intros Hin; apply Hn; now right).
      now destruct (split c r).
Qed.

Lemma split_escapeHtml s :
  split LF (escapeHtml s) = map escapeHtml (split LF s).
Proof.
  rewrite escapeHtml_units.
  induction s as [|c s IH]; [reflexivity|].
  cbn [flat_map split]. destruct (N.eqb_spec c LF) as [->|Hc].
  - change (escape_unit LF ++ flat_map escape_unit s)
      with (LF :: flat_map escape_unit s).
    cbn [split]. rewrite N.eqb_refl, IH. reflexivity.
  - rewrite (split_app_without LF _ _ (escape_unit_no_LF c Hc)), IH.
    destruct (split LF s) as [|l ls]; cbn [map].
    + rewrite escapeHtml_units. cbn [flat_map]. now rewrite app_nil_r.
    + rewrite !escapeHtml_units. reflexivity.
Qed.

Lemma escapeHtml_plain s : existsb is_special s = false -> escapeHtml s = s.
Proof.
  rewrite escapeHtml_units.
  induction s as [|c s IH]; [reflexivity|].
  cbn [existsb flat_map]. intros H. apply orb_false_elim in H as [Hc Hs].
  now rewrite (escape_unit_plain c Hc), IH.
Qed.

Lemma escapeHtml_keeps_special s :
  existsb is_special s = true -> existsb is_special (escapeHtml s) = true.
Proof.
  rewrite escapeHtml_units.
  induction s as [|c s IH]; [discriminate|].
  cbn [existsb flat_map]. rewrite existsb_app.
  destruct (is_special c) eqn:Hc.
  - destruct (escape_unit_special c Hc) as [body [_ ->]]. reflexivity.
  - cbn [orb]. intros Hs. rewrite (IH Hs). apply orb_true_r.
Qed.

Lemma escapeHtml_longer s :
  existsb is_special s = true ->
  (List.length s < List.length (escapeHtml s))%nat.
Proof.
  rewrite escapeHtml_units.
  assert (Hle : forall t, (List.length t <= List.length (flat_map escape_unit t))%nat).
  { induction t as [|c t IH]; [apply le_n|].
    cbn [flat_map]. rewrite length_app. cbn [List.length].
    destruct (is_special c) eqn:Hc.
    - destruct (escape_unit_special c Hc) as [body [_ ->]]. cbn [List.length]. lia.
    - rewrite (escape_unit_plain c Hc). cbn [List.length]. lia. }
  induction s as [|c s IH]; [discriminate|].
  cbn [existsb flat_map]. rewrite length_app. cbn [List.length].
  destruct (is_special c) eqn:Hc.
  - intros _. destruct (escape_unit_special c Hc) as [body [Hb ->]].
    specialize (Hle s). destruct body; [congruence|]. cbn [List.length]. lia.
  - cbn [orb]. intros Hs. specialize (IH Hs).
    rewrite (escape_unit_plain c Hc). cbn [List.length]. lia.
Qed.

End EscapingFurther.

(** X1. [escapeHtml] loses nothing: replacing the five entities by their
    characters gives the text back, so two texts with the same escaped
    form are the same text. *)
Theorem escapeHtml_reversible :
  forall s t,
    unescapeHtml (escapeHtml s) = s
    /\ (escapeHtml s = escapeHtml t <-> s = t).
Proof.
  intros s t. split; [apply unescape_escape|]. split.
  - intros H. rewrite <- (unescape_escape s), <- (unescape_escape t).
    now rewrite H.
  - now intros ->.
Qed.

Lemma escapeHtml_reversible_witness :
  escapeHtml (lit "a<b") = escapeHtml ([97] ++ lit "<b")
  /\ lit "a<b" = [97] ++ lit "<b"
  /\ unescapeHtml (lit "a&lt;b &amp;amp; c") = lit "a<b &amp; c".
Proof.
  split; [reflexivity|]. split.
  - exact (proj1 (proj2 (escapeHtml_reversible (lit "a<b") ([97] ++ lit "<b")))
             eq_refl).
  - exact (proj1 (escapeHtml_reversible (lit "a<b &amp; c") [])).
Defined.

(** X2. [escapeHtml] works code unit by code unit: it distributes over
    concatenation, and it neither adds nor removes a line break, so
    escaping a text and splitting it into lines gives the escaped lines
    of the text. *)
Theorem escapeHtml_lines :
  forall a b,
    escapeHtml (a ++ b) = escapeHtml a ++ escapeHtml b
    /\ split LF (escapeHtml a) = map escapeHtml (split LF a)
    /\ (truthy a = true ->
        paragraphs a
        = join [LF] (map (fun e => lit "<p>" ++ e ++ lit "</p>")
                         (split LF (escapeHtml a)))).
Proof.
  intros a b. split; [apply escapeHtml_app|]. split; [apply split_escapeHtml|].
  intros Ha. unfold paragraphs. rewrite Ha, split_escapeHtml. now rewrite map_map.
Qed.

Lemma escapeHtml_lines_witness :
  truthy (lit "a<b") = true
  /\ paragraphs (lit "a<b") = lit "<p>a&lt;b</p>".
Proof.
  split; [reflexivity|].
  exact (proj2 (proj2 (escapeHtml_lines (lit "a<b") [])) eq_refl).
Defined.

(** X3. Escaping twice is not escaping once: [escapeHtml] leaves a text
    unchanged, and is idempotent on it, exactly when the text holds none
    of the five characters; any other text grows with each pass. *)
Theorem escapeHtml_twice :
  forall s,
    (escapeHtml s = s <-> existsb is_special s = false)
    /\ (escapeHtml (escapeHtml s) = escapeHtml s <-> existsb is_special s = false)
    /\ (existsb is_special s = true ->
        (List.length s < List.length (escapeHtml s)
         < List.length (escapeHtml (escapeHtml s)))%nat).
Proof.
  intros s.
  assert (Hgrow : existsb is_special s = true ->
                  (List.length s < List.length (escapeHtml s)
                   < List.length (escapeHtml (escapeHtml s)))%nat).
  { intros H. split; [now apply escapeHtml_longer|].
    now apply escapeHtml_longer, escapeHtml_keeps_special. }
  split; [|split; [|exact Hgrow]].
  - split; [|apply escapeHtml_plain].
    intros H. destruct (existsb is_special s) eqn:Hs; [|reflexivity].
    destruct (Hgrow eq_refl) as [Hlt _]. rewrite H in Hlt. lia.
  - split.
    + intros H. destruct (existsb is_special s) eqn:Hs; [|reflexivity].
      destruct (Hgrow eq_refl) as [_ Hlt]. rewrite H in Hlt. lia.
    + intros H. now rewrite !(escapeHtml_plain s H).
Qed.

Lemma escapeHtml_twice_witness :
  existsb is_special (lit "a&b") = true
  /\ escapeHtml (escapeHtml (lit "a&b")) = lit "a&amp;amp;b"
  /\ (3 < 7 < 11)%nat.
Proof.
  split; [reflexivity|]. split; [reflexivity|].
  exact (proj2 (proj2 (escapeHtml_twice (lit "a&b"))) eq_refl).
Defined.

(* ===================================================================== *)
(** * Further properties of the cleanup *)
(* ===================================================================== *)

Section CleanupFurther.

Lemma cleaned_kept text : cleaned text = join [LF] (kept_lines text).
Proof. reflexivity. Qed.

Lemma words_nil_iff l : words l = [] <-> forallb is_ws l = true.
Proof.
  induction l as [|c r IH]; [now split|].
  cbn [forallb]. destruct (is_ws c) eqn:Hc.
  - now rewrite (words_ws c r Hc).
  - pose proof (words_start c r Hc). split; [congruence | discriminate].
Qed.

Lemma clean_line_nil_iff l : clean_line l = [] <-> forallb is_ws l = true.
Proof.
  rewrite <- words_nil_iff, clean_line_words. split.
  - intros H. destruct (words l) as [|w ws] eqn:Hw; [reflexivity|].
    assert (Ht : truthy (join [SP] (words l)) = true)
      by (apply join_words_truthy; rewrite Hw; discriminate).
    rewrite Hw, H in Ht. discriminate.
  - now intros ->.
Qed.

Lemma all_ws_split s :
  forallb is_ws s = forallb (forallb is_ws) (split LF s).
Proof.
  induction s as [|x r IH]; [reflexivity|].
  cbn [forallb split]. destruct (N.eqb_spec x LF) as [->|_].
  - cbn [forallb]. now rewrite IH.
  - rewrite IH. destruct (split LF r) as [|l ls]; cbn [forallb].
    + now rewrite !andb_true_r.
    + now rewrite andb_assoc.
Qed.

Lemma join_truthy sep l ls : truthy l = true -> truthy (join sep (l :: ls)) = true.
Proof. intros H. destruct ls; [exact H | now apply truthy_app_l]. Qed.

Lemma kept_lines_nil_iff s : kept_lines s = [] <-> forallb is_ws s = true.
Proof.
  rewrite all_ws_split. unfold kept_lines.
  induction (split LF s) as [|l ls IH]; [now split|].
  cbn [map filter forallb].
  destruct (clean_line l) as [|c r] eqn:Hl; cbn [truthy].
  - apply clean_line_nil_iff in Hl. now rewrite Hl.
  - split; [discriminate|]. intros H. apply andb_prop in H as [H _].
    apply clean_line_nil_iff in H. congruence.
Qed.

Lemma split_kept s : kept_lines s <> [] -> split LF (join [LF] (kept_lines s)) = kept_lines s.
Proof.
  intros Hne. apply split_join; [exact Hne|].
  eapply Forall_impl; [|apply kept_lines_clean]. now intros ? [_ [_ ?]].
Qed.

(** ** White space in front and at the end *)

Lemma words_snoc_ws l c : is_ws c = true -> words (l ++ [c]) = words l.
Proof.
  intros Hc. induction l as [|x l IH]; [now apply words_ws|].
  cbn [app]. destruct (is_ws x) eqn:Hx.
  - now rewrite !(words_ws x _ Hx).
  - rewrite !(words_visible x _ Hx). destruct l as [|d l'].
    + cbn [app]. now rewrite Hc, (words_ws c [] Hc).
    + cbn [app] in IH |- *. now rewrite IH.
Qed.

Lemma split_not_nil c s : split c s <> [].
Proof.
  destruct s as [|x r]; cbn [split]; [discriminate|].
  destruct (x =? c); [discriminate|].
  destruct (split c r); discriminate.
Qed.

Lemma split_snoc_LF s : split LF (s ++ [LF]) = split LF s ++ [[]].
Proof.
  induction s as [|x s IH]; [reflexivity|].
  cbn [app split]. rewrite IH.
  destruct (x =? LF); [reflexivity|].
  pose proof (split_not_nil LF s) as Hne.
  destruct (split LF s) as [|l ls]; [congruence | reflexivity].
Qed.

Lemma split_snoc_other s c :
  c <> LF ->
  exists ls l, split LF s = ls ++ [l] /\ split LF (s ++ [c]) = ls ++ [l ++ [c]].
Proof.
  intros Hc. induction s as [|x s [ls [l [Hs Hsc]]]].
  - exists [], []. cbn. apply N.eqb_neq in Hc. now rewrite Hc.
  - cbn [app split]. rewrite Hs, Hsc. destruct (x =? LF).
    + now exists ([] :: ls), l.
    + destruct ls as [|l0 ls'].
      * now exists [], (x :: l).
      * now exists ((x :: l0) :: ls'), l.
Qed.

Lemma kept_lines_snoc_ws s c : is_ws c = true -> kept_lines (s ++ [c]) = kept_lines s.
Proof.
  intros Hc. unfold kept_lines. destruct (N.eq_dec c LF) as [->|Hne].
  - rewrite split_snoc_LF, map_app, filter_app. cbn. apply app_nil_r.
  - destruct (split_snoc_other s c Hne) as [ls [l [-> ->]]].
    rewrite !map_app. cbn [map].
    now rewrite !clean_line_words, (words_snoc_ws l c Hc).
Qed.

Lemma kept_lines_cons_ws s c : is_ws c = true -> kept_lines (c :: s) = kept_lines s.
Proof.
  intros Hc. unfold kept_lines. cbn [split].
  destruct (c =? LF); [reflexivity|].
  pose proof (split_not_nil LF s) as Hne.
  destruct (split LF s) as [|l ls]; [congruence|].
  cbn [map]. now rewrite !clean_line_words, (words_ws c l Hc).
Qed.

Lemma trimEnd_snoc_ws s c : is_ws c = true -> trimEnd (s ++ [c]) = trimEnd s.
Proof.
  intros Hc. induction s as [|x s IH]; [cbn; now rewrite Hc|].
  cbn [app trimEnd]. now rewrite IH.
Qed.

Lemma trimEnd_snoc_visible s c : is_ws c = false -> trimEnd (s ++ [c]) = s ++ [c].
Proof.
  intros Hc. induction s as [|x s IH]; [cbn; now rewrite Hc|].
  cbn [app trimEnd]. rewrite IH.
  destruct (s ++ [c]) eqn:Hs; [now destruct s | reflexivity].
Qed.

Lemma kept_lines_trimEnd s : kept_lines (trimEnd s) = kept_lines s.
Proof.
  induction s as [|c s IH] using rev_ind; [reflexivity|].
  destruct (is_ws c) eqn:Hc.
  - now rewrite (trimEnd_snoc_ws s c Hc), (kept_lines_snoc_ws s c Hc).
  - now rewrite (trimEnd_snoc_visible s c Hc).
Qed.

Lemma kept_lines_trimStart s : kept_lines (trimStart s) = kept_lines s.
Proof.
  induction s as [|c s IH]; [reflexivity|].
  cbn [trimStart]. destruct (is_ws c) eqn:Hc; [|reflexivity].
  now rewrite IH, (kept_lines_cons_ws s c Hc).
Qed.

Lemma kept_lines_trim s : kept_lines (trim s) = kept_lines s.
Proof. unfold trim. now rewrite kept_lines_trimEnd, kept_lines_trimStart. Qed.

(** ** White space inside cleaned text *)

Lemma spaced_word b w rest :
  is_word w = true -> spaced b (w ++ rest) = spaced false rest.
Proof.
  revert b. induction w as [|c w IH]; intros b Hw; [discriminate|].
  unfold is_word in Hw. cbn in Hw. apply andb_prop in Hw as [Hc Hfree].
  apply negb_true_iff in Hc. cbn [app spaced]. rewrite Hc.
  destruct w as [|d w']; [reflexivity|].
  apply IH. unfold is_word. exact Hfree.
Qed.

Lemma spaced_words ws rest :
  ws <> [] -> forallb is_word ws = true ->
  spaced true (join [SP] ws ++ rest) = spaced false rest.
Proof.
  induction ws as [|w ws IH]; intros Hne Hall; [congruence|].
  cbn [forallb] in Hall. apply andb_prop in Hall as [Hw Hws].
  destruct ws as [|w' ws'].
  - cbn [join]. now apply spaced_word.
  - rewrite join_cons, <- !app_assoc. rewrite (spaced_word true w _ Hw).
    cbn [app spaced]. rewrite is_ws_SP. cbn [negb andb].
    rewrite N.eqb_refl. cbn [orb]. apply IH; [discriminate | exact Hws].
Qed.

Lemma spaced_lines (lines : list (list jsstring)) :
  lines <> [] ->
  Forall (fun ws => ws <> [] /\ forallb is_word ws = true) lines ->
  spaced true (join [LF] (map (join [SP]) lines)) = true.
Proof.
  induction lines as [|ws lines IH]; intros Hne Hall; [congruence|].
  inversion Hall as [|? ? [Hws Hwords] Hrest]; subst.
  destruct lines as [|ws' lines'].
  - cbn [map join]. rewrite <- (app_nil_r (join [SP] ws)).
    now rewrite (spaced_words ws [] Hws Hwords).
  - cbn [map]. rewrite join_cons. rewrite (spaced_words ws _ Hws Hwords).
    cbn [app spaced]. change (is_ws LF) with true. cbn.
    apply IH; [discriminate | exact Hrest].
Qed.

(** The kept lines are the lines with a word, as their words. *)
Lemma kept_lines_words text :
  exists lines,
    kept_lines text = map (join [SP]) lines
    /\ Forall (fun ws => ws <> [] /\ forallb is_word ws = true) lines.
Proof.
  unfold kept_lines. induction (split LF text) as [|l ls [lines [Hk Hall]]].
  - now exists [].
  - cbn [map filter]. rewrite clean_line_words.
    destruct (words l) as [|w ws] eqn:Hw.
    + cbn. now exists lines.
    + assert (Ht : truthy (join [SP] (words l)) = true)
        by (apply join_words_truthy; rewrite Hw; discriminate).
      rewrite Hw in Ht. rewrite Ht. exists ((w :: ws) :: lines). split.
      * cbn [map]. now rewrite Hk.
      * constructor; [|exact Hall]. split; [discriminate|].
        rewrite <- Hw. apply words_are_words.
Qed.

Lemma cleaned_tidy text : tidy (cleaned text) = true.
Proof.
  rewrite cleaned_kept.
  destruct (kept_lines_words text) as [lines [Hk Hall]]. rewrite Hk.
  destruct lines as [|ws lines]; [reflexivity|].
  assert (Hs : spaced true (join [LF] (map (join [SP]) (ws :: lines))) = true)
    by (apply spaced_lines; [discriminate | exact Hall]).
  unfold tidy. now destruct (join [LF] (map (join [SP]) (ws :: lines))).
Qed.

End CleanupFurther.

(** X4. Trimming before the cleanup changes nothing: the cleanup of the
    trimmed text is the cleanup of the text, and white space added in
    front of a text or behind it is cleaned away. *)
Theorem cleaned_ignores_margins :
  forall s c,
    cleaned (trim s) = cleaned s
    /\ (is_ws c = true ->
        cleaned (c :: s) = cleaned s /\ cleaned (s ++ [c]) = cleaned s).
Proof.
  intros s c. rewrite !cleaned_kept. split; [now rewrite kept_lines_trim|].
  intros Hc.
  now rewrite (kept_lines_cons_ws s c Hc), (kept_lines_snoc_ws s c Hc).
Qed.

Lemma cleaned_ignores_margins_witness :
  is_ws LF = true
  /\ cleaned (LF :: lit "a  b") = lit "a b"
  /\ cleaned (lit "a  b" ++ [LF]) = lit "a b".
Proof.
  split; [reflexivity|].
  destruct (proj2 (cleaned_ignores_margins (lit "a  b") LF) eq_refl) as [H1 H2].
  split; [exact H1 | exact H2].
Defined.

(** X5. The cleanup returns the empty text exactly for a text made of
    white space only (the empty text among them); whenever the text
    holds a visible code unit, the cleaned text is not empty. *)
Theorem cleaned_empty_iff :
  forall s, cleaned s = [] <-> forallb is_ws s = true.
Proof.
  intros s. rewrite <- kept_lines_nil_iff, cleaned_kept. split.
  - intros H. pose proof (kept_lines_clean s) as Hk. fold (kept_lines s) in Hk.
    destruct (kept_lines s) as [|l ls]; [reflexivity|].
    inversion Hk as [|? ? [Hl _] _]; subst.
    pose proof (join_truthy [LF] l ls Hl) as Ht. rewrite H in Ht. discriminate.
  - now intros ->.
Qed.

Lemma cleaned_empty_iff_witness :
  forallb is_ws ([SP; LF; 9; 160; LF]) = true
  /\ cleaned ([SP; LF; 9; 160; LF]) = [].
Proof.
  split; [reflexivity|].
  exact (proj2 (cleaned_empty_iff [SP; LF; 9; 160; LF]) eq_refl).
Defined.

(** X6. Cleaned text is tidy: its only white space are single spaces
    and single line breaks, each between two visible code units; it has
    no blank line, no double space, and neither starts nor ends with
    white space.  Its lines are the kept lines, none of them empty. *)
Theorem cleaned_is_tidy :
  forall s,
    tidy (cleaned s) = true
    /\ ~ In [] (kept_lines s)
    /\ (cleaned s <> [] -> split LF (cleaned s) = kept_lines s).
Proof.
  intros s. split; [apply cleaned_tidy|]. split.
  - unfold kept_lines. intros Hin. apply filter_In in Hin as [_ Ht]. discriminate.
  - intros Hne. rewrite cleaned_kept in *. apply split_kept.
    intros Hk. apply Hne. now rewrite Hk.
Qed.

Lemma cleaned_is_tidy_witness :
  cleaned (lit " a " ++ [LF; LF] ++ lit "b  c") <> []
  /\ split LF (cleaned (lit " a " ++ [LF; LF] ++ lit "b  c")) = [lit "a"; lit "b c"].
Proof.
  split; [discriminate|].
  exact (proj2 (proj2 (cleaned_is_tidy (lit " a " ++ [LF; LF] ++ lit "b  c")))
           ltac:(discriminate)).
Defined.

(* ===================================================================== *)
(** * Further properties of the HTML renderer *)
(* ===================================================================== *)

Section RenderFurther.

Lemma count_unit_app c a b :
  count_unit c (a ++ b) = (count_unit c a + count_unit c b)%nat.
Proof. unfold count_unit. now rewrite filter_app, length_app. Qed.

(** Escaped text holds no angle bracket and no quote. *)
Lemma count_unit_escapeHtml c s :
  is_special c && negb (c =? 38) = true -> count_unit c (escapeHtml s) = 0%nat.
Proof.
  intros Hc. rewrite escapeHtml_units.
  assert (Hunit : forall x, count_unit c (escape_unit x) = 0%nat).
  { intros x. apply andb_prop in Hc as [Hs H38]. unfold is_special in Hs.
    apply negb_true_iff in H38. rewrite H38 in Hs. cbn [orb] in Hs.
    unfold escape_unit.
    destruct (x =? 38) eqn:X38; [|destruct (x =? 60) eqn:X60;
      [|destruct (x =? 62) eqn:X62; [|destruct (x =? 34) eqn:X34;
        [|destruct (x =? 39) eqn:X39]]]];
      repeat (apply orb_prop in Hs as [Hs|Hs]);
      apply N.eqb_eq in Hs; subst c; try reflexivity;
      unfold count_unit; cbn [filter];
      rewrite N.eqb_sym; now rewrite ?X60, ?X62, ?X34, ?X39. }
  induction s as [|x s IH]; [reflexivity|].
  cbn [flat_map]. now rewrite count_unit_app, Hunit, IH.
Qed.

(** A code unit that is no line break occurs in joined lines as often as
    in the lines. *)
Lemma count_unit_join c ls :
  c <> LF ->
  count_unit c (join [LF] ls) = list_sum (map (count_unit c) ls).
Proof.
  intros Hc. induction ls as [|l ls IH]; [reflexivity|].
  destruct ls as [|l' ls'].
  - cbn [join map list_sum fold_right]. lia.
  - rewrite join_cons, !count_unit_app, IH. cbn [map list_sum fold_right].
    unfold count_unit at 2. cbn [filter].
    apply N.eqb_neq in Hc. rewrite Hc. cbn. lia.
Qed.

Lemma list_sum_const {A} (f : A -> nat) k (l : list A) :
  (forall x, f x = k) -> list_sum (map f l) = (k * List.length l)%nat.
Proof.
  intros H. induction l as [|x l IH]; cbn [map list_sum fold_right List.length]; [lia|].
  change (fold_right Nat.add 0%nat (map f l)) with (list_sum (map f l)).
  rewrite H, IH. lia.
Qed.

(** The paragraphs bring two opening and two closing angle brackets
    each, and no quote. *)
Lemma count_unit_paragraphs c text :
  is_special c && negb (c =? 38) = true ->
  count_unit c (paragraphs text)
  = (count_unit c (lit "<p></p>") * paragraph_count text)%nat.
Proof.
  intros Hc. unfold paragraphs, paragraph_count.
  destruct (truthy text).
  - assert (Hne : c <> LF).
    { intros ->. discriminate Hc. }
    rewrite (count_unit_join c _ Hne), map_map.
    apply list_sum_const. intros p.
    rewrite !count_unit_app, (count_unit_escapeHtml c p Hc).
    change (lit "<p></p>") with (lit "<p>" ++ lit "</p>").
    rewrite count_unit_app. lia.
  - apply andb_prop in Hc as [Hs H38]. unfold is_special in Hs.
    apply negb_true_iff in H38. rewrite H38 in Hs. cbn [orb] in Hs.
    repeat (apply orb_prop in Hs as [Hs|Hs]);
      apply N.eqb_eq in Hs; subst c; reflexivity.
Qed.

End RenderFurther.

(** C1. For every article record, the document that the HTML renderer
    returns is the fixed text of its template with nine values woven in,
    and every value is escaped: title (or its default), url and
    fetchedAt go through [escapeHtml], and the body is a block of
    paragraphs in which every body line stands escaped between its tags.
    In escaped text the ampersand, the angle brackets and the double and
    single quote occur only as their entities, so the values add no
    angle bracket and no quote to the document: whatever the record
    holds, those are the ones of the template and of the paragraph tags,
    and the template holds no ampersand.  A body line holding a script
    element is rendered as a paragraph of escaped text, with no raw
    markup. *)
Theorem renderHtml_escapes :
  (forall r : ArticleRecord,
      renderHtml r
      = weave html_chunks
          [ escapeHtml (or_else (title r) (lit "Yle uusin artikkeli"));
            escapeHtml (or_else (title r) (lit "Yle uusin artikkeli"));
            escapeHtml (url r);
            escapeHtml (fetchedAt r);
            escapeHtml (or_else (title r) (lit "Viimeisin Ylen artikkeli"));
            escapeHtml (url r);
            escapeHtml (url r);
            escapeHtml (fetchedAt r);
            paragraphs (text r) ]
      /\ paragraphs (text r)
         = join [LF]
             (map (fun line => lit "<p>" ++ escapeHtml line ++ lit "</p>")
                  (body_lines (text r)))
      /\ count_unit 60 (renderHtml r)
         = (count_unit 60%N (List.concat html_chunks)
            + 2 * List.length (body_lines (text r)))%nat
      /\ count_unit 62 (renderHtml r)
         = (count_unit 62%N (List.concat html_chunks)
            + 2 * List.length (body_lines (text r)))%nat
      /\ count_unit 34 (renderHtml r) = count_unit 34 (List.concat html_chunks)
      /\ count_unit 39 (renderHtml r) = count_unit 39 (List.concat html_chunks))
  /\ count_unit 38 (List.concat html_chunks) = 0%nat
  /\ (forall s, well_escaped (escapeHtml s) = true
                /\ escapeHtml s = flat_map escape_unit s
                /\ count_unit 60 (escapeHtml s) = 0%nat
                /\ count_unit 62 (escapeHtml s) = 0%nat
                /\ count_unit 34 (escapeHtml s) = 0%nat
                /\ count_unit 39 (escapeHtml s) = 0%nat)
  /\ paragraphs (lit "<script>alert(1)</script>")
     = lit "<p>&lt;script&gt;alert(1)&lt;/script&gt;</p>"
  /\ renderHtml {| title := lit "T"; url := lit "u";
                   text := lit "<script>alert(1)</script>";
                   fetchedAt := lit "now" |}
     = weave html_chunks
         [ lit "T"; lit "T"; lit "u"; lit "now"; lit "T"; lit "u"; lit "u";
           lit "now"; lit "<p>&lt;script&gt;alert(1)&lt;/script&gt;</p>" ].
Proof.
  split; [|split; [vm_compute; reflexivity | split; [|split]]].
  - intros r.
    assert (Hlines : paragraph_count (text r) = List.length (body_lines (text r))).
    { unfold paragraph_count, body_lines. now destruct (truthy (text r)). }
    split.
    { unfold renderHtml, html_chunks, renderHtml_template, chunks_of.
      cbn [flat_map piece_string app weave List.concat]. reflexivity. }
    split.
    { unfold paragraphs, body_lines. now destruct (truthy (text r)). }
    assert (H60 : count_unit 60 (List.concat html_chunks) = 30%nat)
      by (vm_compute; reflexivity).
    assert (H62 : count_unit 62 (List.concat html_chunks) = 30%nat)
      by (vm_compute; reflexivity).
    assert (H34 : count_unit 34 (List.concat html_chunks) = 32%nat)
      by (vm_compute; reflexivity).
    assert (H39 : count_unit 39 (List.concat html_chunks) = 0%nat)
      by (vm_compute; reflexivity).
    rewrite H60, H62, H34, H39, <- Hlines.
    unfold renderHtml, renderHtml_template.
    cbn [flat_map piece_string].
    repeat split;
      rewrite !count_unit_app;
      rewrite !count_unit_escapeHtml by reflexivity;
      rewrite count_unit_paragraphs by reflexivity;
      repeat match goal with
             | |- context [count_unit ?c ?s] =>
                 let v := eval vm_compute in (count_unit c s) in
                 change (count_unit c s) with v
             end;
      lia.
  - intros s. split; [apply escapeHtml_well_escaped|].
    split; [apply escapeHtml_units|].
    repeat split; now apply count_unit_escapeHtml.
  - vm_compute; reflexivity.
  - vm_compute; reflexivity.
Qed.

(** X7. What the record holds cannot change the markup of the rendered
    document: whatever title, url, text and time stamp are, the document
    has 30 opening and 30 closing angle brackets of its own plus two of
    each per paragraph of the body, 32 double quotes and no single
    quote. *)
Theorem renderHtml_markup_fixed :
  forall r : ArticleRecord,
    count_unit 60 (renderHtml r) = (30 + 2 * paragraph_count (text r))%nat
    /\ count_unit 62 (renderHtml r) = (30 + 2 * paragraph_count (text r))%nat
    /\ count_unit 34 (renderHtml r) = 32%nat
    /\ count_unit 39 (renderHtml r) = 0%nat.
Proof.
  intros r. unfold renderHtml, renderHtml_template.
  cbn [flat_map piece_string].
  repeat split;
    rewrite !count_unit_app;
    rewrite !count_unit_escapeHtml by reflexivity;
    rewrite count_unit_paragraphs by reflexivity;
    repeat match goal with
           | |- context [count_unit ?c ?s] =>
               let v := eval vm_compute in (count_unit c s) in
               change (count_unit c s) with v
           end;
    lia.
Qed.

(** X8. Rendering a cleaned body gives one paragraph per kept line, in
    order, and none of them is empty; the placeholder paragraph stands
    in exactly when the text before the cleanup was white space only. *)
Theorem paragraphs_of_cleaned :
  forall s,
    paragraphs (cleaned s)
    = match kept_lines s with
      | [] => lit "<p>(No article text extracted)</p>"
      | _ :: _ => join [LF] (map paragraph (kept_lines s))
      end
    /\ paragraph_count (cleaned s) = Nat.max 1 (List.length (kept_lines s))
    /\ forallb truthy (kept_lines s) = true
    /\ (kept_lines s = [] <-> forallb is_ws s = true).
Proof.
  intros s. rewrite cleaned_kept.
  assert (Hall : forallb truthy (kept_lines s) = true).
  { apply forallb_forall. intros l Hin. unfold kept_lines in Hin.
    now apply filter_In in Hin as [_ Ht]. }
  split; [|split; [|split; [exact Hall | apply kept_lines_nil_iff]]].
  - destruct (kept_lines s) as [|l ls] eqn:Hk; [reflexivity|].
    cbn [forallb] in Hall. apply andb_prop in Hall as [Hl _].
    unfold paragraphs. rewrite (join_truthy [LF] l ls Hl).
    rewrite <- Hk, split_kept by (rewrite Hk; discriminate). reflexivity.
  - destruct (kept_lines s) as [|l ls] eqn:Hk; [reflexivity|].
    cbn [forallb] in Hall. apply andb_prop in Hall as [Hl _].
    unfold paragraph_count. rewrite (join_truthy [LF] l ls Hl).
    rewrite <- Hk, split_kept by (rewrite Hk; discriminate).
    rewrite Hk. cbn [List.length]. lia.
Qed.

Lemma paragraphs_of_cleaned_witness :
  forallb is_ws [SP; LF; SP] = true
  /\ kept_lines [SP; LF; SP] = []
  /\ paragraphs (cleaned [SP; LF; SP]) = lit "<p>(No article text extracted)</p>".
Proof.
  split; [reflexivity|].
  destruct (paragraphs_of_cleaned [SP; LF; SP]) as [Hp [_ [_ Hiff]]].
  assert (Hk : kept_lines [SP; LF; SP] = []) by (apply Hiff; reflexivity).
  split; [exact Hk|]. rewrite Hp, Hk. reflexivity.
Defined.

(* ===================================================================== *)
(** * Further properties of the run *)
(* ===================================================================== *)

Section RunFurther.

Lemma snd_bind {A B} (m : M A) (k : A -> M B) :
  snd (bind m k)
  = snd m ++ match fst m with Ok a => snd (k a) | Throw _ => [] end.
Proof.
  destruct m as [[a|e] t]; cbn [bind fst snd];
    [now destruct (k a) | now rewrite app_nil_r].
Qed.

Lemma emits_finally p {A} (m : M A) (f : M unit) :
  emits p m -> emits p f -> emits p (finally m f).
Proof.
  unfold emits, finally. destruct m as [r t], f as [[u|e] t'];
    cbn [snd]; intros Hm Hf; now rewrite forallb_app, Hm, Hf.
Qed.

(** ** The calls of the Content Resolver *)

Lemma innerText_trimmed_run sel l :
  Scraper.innerText_trimmed sel l = (Ok (tier_text l 1), [InnerText sel]).
Proof.
  unfold Scraper.innerText_trimmed, tier_text. rewrite catch_await.
  cbn. now destruct (loc_innerText l).
Qed.

(** One tier, run on a text that is still empty. *)
Lemma tier_run sel l text :
  truthy text = false ->
  (n <- await (Count sel) (loc_count l) ;;
   if nonzero n then Scraper.innerText_trimmed sel l else ret text)
  = (tier_result l text, tier_calls sel l).
Proof.
  intros Ht. unfold tier_result, tier_calls, present. rewrite Ht.
  destruct (loc_count l) as [n|d]; [|reflexivity].
  cbn [await bind]. destruct (nonzero n) eqn:Hn.
  - rewrite innerText_trimmed_run. now rewrite (tier_text_nonzero l n Hn).
  - rewrite (tier_text_zero l n Hn). destruct text; [reflexivity | discriminate].
Qed.

Lemma guarded_tier_run sel l text :
  (if negb (truthy text)
   then n <- await (Count sel) (loc_count l) ;;
        if nonzero n then Scraper.innerText_trimmed sel l else ret text
   else ret text)
  = (tier_result l text, if truthy text then [] else tier_calls sel l).
Proof.
  destruct (truthy text) eqn:Ht; cbn [negb].
  - unfold tier_result. now rewrite Ht.
  - now apply tier_run.
Qed.

Lemma yields_nothing_tier l :
  yields_nothing l
  = match tier_result l [] with Ok t => negb (truthy t) | Throw _ => false end.
Proof. unfold yields_nothing, tier_result. cbn. now destruct (loc_count l). Qed.

Lemma content_calls pg :
  snd (Scraper.content pg)
  = [WaitFor sel_article; WaitFor sel_content; TextContent sel_h1]
    ++ tier_calls sel_article (pg_article pg)
    ++ (if yields_nothing (pg_article pg)
        then tier_calls sel_content (pg_content pg)
             ++ (if yields_nothing (pg_content pg)
                 then tier_calls sel_main (pg_main pg)
                 else [])
        else []).
Proof.
  unfold Scraper.content. cbv zeta.
  rewrite snd_bind, catch_await. cbn [fst snd].
  rewrite snd_bind, catch_await. cbn [fst snd].
  rewrite snd_bind, catch_await. cbn [fst snd].
  rewrite <- bind_assoc.
  rewrite snd_bind, (tier_run sel_article (pg_article pg) [] eq_refl).
  cbn [fst snd app]. do 3 f_equal.
  rewrite !yields_nothing_tier.
  destruct (tier_result (pg_article pg) []) as [t1|e1]; [|reflexivity].
  rewrite snd_bind, guarded_tier_run. cbn [fst snd].
  destruct (truthy t1) eqn:Ht1; cbn [negb app].
  - unfold tier_result. rewrite Ht1. rewrite snd_bind, guarded_tier_run.
    cbn [fst snd]. unfold tier_result. now rewrite Ht1.
  - destruct t1; [|discriminate]. f_equal.
    destruct (tier_result (pg_content pg) []) as [t2|e2];
      [|now rewrite app_nil_r].
    rewrite snd_bind, guarded_tier_run. cbn [fst snd].
    destruct (truthy t2) eqn:Ht2; cbn [negb app].
    + unfold tier_result. now rewrite Ht2.
    + destruct (tier_result (pg_main pg) t2); now rewrite app_nil_r.
Qed.

(** ** Navigation *)

Lemma no_goto_gotos t :
  forallb (fun ev => negb (is_goto ev)) t = true -> gotos t = [].
Proof.
  induction t as [|ev t IH]; [reflexivity|].
  cbn [forallb]. intros H. apply andb_prop in H as [Hev Ht].
  unfold gotos in *. cbn [flat_map]. rewrite (IH Ht).
  now destruct ev.
Qed.

Lemma gotos_app t t' : gotos (t ++ t') = gotos t ++ gotos t'.
Proof. apply flat_map_app. Qed.

Lemma latestLink_no_goto w :
  emits (fun ev => negb (is_goto ev)) (Scraper.latestLink w).
Proof. unfold Scraper.latestLink. trace_steps. Qed.

Lemma content_no_goto pg :
  emits (fun ev => negb (is_goto ev)) (Scraper.content pg).
Proof.
  unfold Scraper.content, Scraper.innerText_trimmed. cbv zeta. trace_steps.
Qed.

Lemma extraction_gotos w :
  gotos (snd (Scraper.extraction w))
  = home_url
    :: match w_goto_home w, latestLink_result w with
       | Ok _, Ok target => [target]
       | _, _ => []
       end.
Proof.
  unfold Scraper.extraction. cbv zeta.
  rewrite snd_bind, gotos_app. cbn [await fst snd gotos flat_map app].
  f_equal. destruct (w_goto_home w) as [u|d]; [|reflexivity].
  rewrite snd_bind, gotos_app, latestLink_value.
  rewrite (no_goto_gotos _ (latestLink_no_goto w)). cbn [app].
  destruct (latestLink_result w) as [target|e]; [|reflexivity].
  rewrite snd_bind, gotos_app. cbn [await fst snd gotos flat_map app].
  f_equal. destruct (w_goto_article w target); [|reflexivity].
  rewrite snd_bind, gotos_app.
  rewrite (no_goto_gotos _ (content_no_goto _)).
  now destruct (fst (Scraper.content (w_article_page w target))).
Qed.

(** ** The file system and the standard output *)

Lemma fetch_no_fs_no_log w :
  emits (fun ev => negb (is_fs ev) && negb (is_log ev))
        (Scraper.fetchLatestYleArticle w).
Proof.
  unfold Scraper.fetchLatestYleArticle, Scraper.extraction, Scraper.latestLink,
    Scraper.content, Scraper.innerText_trimmed. cbv zeta.
  repeat first [ apply emits_finally | progress trace_steps ].
Qed.

Lemma quiet_trace t :
  forallb (fun ev => negb (is_fs ev) && negb (is_log ev)) t = true ->
  fs_calls t = [] /\ stdout t = [].
Proof.
  induction t as [|ev t IH]; [now split|].
  cbn [forallb]. intros H. apply andb_prop in H as [Hev Ht].
  destruct (IH Ht) as [Hf Ho]. apply andb_prop in Hev as [Hfs Hlog].
  apply negb_true_iff in Hfs. unfold fs_calls, stdout in *.
  cbn [filter flat_map]. rewrite Hfs, Hf, Ho.
  now destruct ev.
Qed.

Lemma fs_calls_app t t' : fs_calls (t ++ t') = fs_calls t ++ fs_calls t'.
Proof. apply filter_app. Qed.

End RunFurther.

(** X9. The Content Resolver asks no more than it needs.  After the two
    waits and the title read, the article container is counted, and read
    only if it holds an element; the content-class container is touched
    only when the article container was counted and yielded no text, the
    main region only when the content-class container yielded none
    either; a container that holds no element is never read. *)
Theorem content_is_lazy :
  forall pg,
    snd (Scraper.content pg)
    = [WaitFor sel_article; WaitFor sel_content; TextContent sel_h1]
      ++ tier_calls sel_article (pg_article pg)
      ++ (if yields_nothing (pg_article pg)
          then tier_calls sel_content (pg_content pg)
               ++ (if yields_nothing (pg_content pg)
                   then tier_calls sel_main (pg_main pg)
                   else [])
          else [])
    /\ counted (snd (Scraper.content pg))
       = sel_article
         :: (if yields_nothing (pg_article pg)
             then sel_content
                  :: (if yields_nothing (pg_content pg) then [sel_main] else [])
             else [])
    /\ texts_read (snd (Scraper.content pg))
       = (if present (pg_article pg) then [sel_article] else [])
         ++ (if yields_nothing (pg_article pg)
             then (if present (pg_content pg) then [sel_content] else [])
                  ++ (if yields_nothing (pg_content pg)
                      then if present (pg_main pg) then [sel_main] else []
                      else [])
             else []).
Proof.
  intros pg. rewrite content_calls. split; [reflexivity|].
  unfold tier_calls.
  destruct (present (pg_article pg)), (present (pg_content pg)),
    (present (pg_main pg)), (yields_nothing (pg_article pg)),
    (yields_nothing (pg_content pg)); split; reflexivity.
Qed.

(** X10. A run with a session navigates to the homepage first and then
    at most once more, to the address the Latest-Link Resolver returned;
    when the homepage fails to load or no link is resolved, the homepage
    is the only address visited.  Both scripts navigate alike. *)
Theorem run_navigations :
  forall w,
    acquired w ->
    gotos (snd (Scraper.fetchLatestYleArticle w))
    = home_url
      :: match w_goto_home w, fst (Scraper.latestLink w) with
         | Ok _, Ok target => [target]
         | _, _ => []
         end
    /\ gotos (snd (Part000.fetchLatestYleArticle w))
       = gotos (snd (Scraper.fetchLatestYleArticle w)).
Proof.
  intros w Hacq. rewrite (scraper_run w Hacq), (part000_run w Hacq).
  rewrite latestLink_value. pose proof (extraction_gotos w) as Hg.
  destruct (Scraper.extraction w) as [[data|e] t]; cbn [snd] in Hg |- *;
    rewrite !gotos_app, Hg; cbn [opening closing report gotos flat_map app];
    rewrite ?app_nil_r; split; reflexivity.
Qed.

Lemma run_navigations_witness :
  acquired sample_world
  /\ gotos (snd (Scraper.fetchLatestYleArticle sample_world))
     = [lit "https://yle.fi/"; lit "https://yle.fi/b/2"].
Proof.
  split; [repeat split|].
  exact (proj1 (run_navigations sample_world
                  (conj eq_refl (conj eq_refl eq_refl)))).
Defined.

(** X11. A record is returned only when every step succeeded, and what
    it holds comes from the page behind its own url: the session was
    acquired, the homepage and the article loaded, the url is the
    resolved link, title and text are what the Content Resolver found on
    the page loaded at that url, the text being cleaned; the text is
    empty exactly when the resolver found only white space. *)
Theorem record_provenance :
  forall w data,
    fst (Scraper.fetchLatestYleArticle w) = Ok (Some data) ->
    acquired w
    /\ w_goto_home w = Ok tt
    /\ fst (Scraper.latestLink w) = Ok (url data)
    /\ w_goto_article w (url data) = Ok tt
    /\ fetchedAt data = w_now w
    /\ exists found,
         fst (Scraper.content (w_article_page w (url data))) = Ok found
         /\ title data = fst found
         /\ text data = cleaned (snd found)
         /\ tidy (text data) = true
         /\ (text data = [] <-> forallb is_ws (snd found) = true).
Proof.
  intros w data Hrun.
  assert (Hacq : acquired w).
  { destruct (acquired_dec w) as [H|H]; [exact H|].
    destruct (unacquired_run w H) as [e [t [Hs _]]].
    rewrite Hs in Hrun. discriminate Hrun. }
  split; [exact Hacq|].
  rewrite (scraper_run w Hacq) in Hrun.
  pose proof (extraction_value w) as Hv.
  destruct (Scraper.extraction w) as [[data'|e] t]; cbn [fst] in Hrun, Hv;
    [|discriminate Hrun].
  injection Hrun as ->. symmetry in Hv. rewrite latestLink_value.
  unfold extraction_result in Hv.
  destruct (w_goto_home w) as [[]|d]; [|discriminate Hv].
  destruct (latestLink_result w) as [target|e]; [|discriminate Hv].
  destruct (w_goto_article w target) as [[]|d] eqn:Hgoto; [|discriminate Hv].
  destruct (content_result (w_article_page w target)) as [found|e] eqn:Hc;
    [|discriminate Hv].
  injection Hv as <-. cbn [url title text fetchedAt].
  repeat split; try assumption.
  exists found. rewrite content_value.
  repeat split; try assumption; try apply cleaned_tidy.
  - intros H. rewrite <- kept_lines_nil_iff.
    rewrite cleaned_kept in H.
    pose proof (kept_lines_clean (snd found)) as Hk.
    fold (kept_lines (snd found)) in Hk.
    destruct (kept_lines (snd found)) as [|l ls]; [reflexivity|].
    inversion Hk as [|? ? [Hl _] _]; subst.
    pose proof (join_truthy [LF] l ls Hl) as Ht. rewrite H in Ht. discriminate.
  - intros H. apply kept_lines_nil_iff in H. now rewrite cleaned_kept, H.
Qed.

Lemma record_provenance_witness :
  exists data,
    fst (Scraper.fetchLatestYleArticle sample_world) = Ok (Some data)
    /\ fst (Scraper.latestLink sample_world) = Ok (url data)
    /\ w_goto_article sample_world (url data) = Ok tt.
Proof.
  eexists. split; [vm_compute; reflexivity|].
  match goal with
  | |- context [url ?d] =>
      destruct (record_provenance sample_world d ltac:(vm_compute; reflexivity))
        as [_ [_ [Hlink [Hgoto _]]]]
  end.
  split; [exact Hlink | exact Hgoto].
Defined.

(** X12. The main block of [scraper.js] touches the file system only
    for a returned record and a non-empty output path.  When the run
    returns no record it neither writes nor prints; without an output
    path, or with an empty one, it writes nothing and prints the summary
    of the record.  With an output path it never prints the summary: it
    creates the directory of the path, then writes the render of the
    returned record at the path, then the serialized record as
    [latest.json] in that directory.  Each of the three calls may fail:
    the first failure ends the program with that error, nothing further
    is written, and the confirmation line is printed only when all three
    calls succeeded. *)
Theorem main_outputs :
  forall w out,
    match fst (Scraper.fetchLatestYleArticle w) with
    | Ok (Some data) =>
        match out with
        | Some p =>
            if truthy p
            then
              let dir := w_dirname w p in
              let json := w_join w dir (lit "latest.json") in
              fs_calls (snd (Scraper.main out w))
              = FsMkdir dir
                :: match w_mkdir w dir with
                   | Throw _ => []
                   | Ok _ =>
                       FsWriteFile p (renderHtml data)
                       :: match w_writeFile w p (renderHtml data) with
                          | Throw _ => []
                          | Ok _ => [FsWriteFile json (w_stringify w data)]
                          end
                   end
              /\ fst (Scraper.main out w)
                 = match w_mkdir w dir with
                   | Throw f => Throw (FsError f)
                   | Ok _ =>
                       match w_writeFile w p (renderHtml data) with
                       | Throw f => Throw (FsError f)
                       | Ok _ =>
                           match w_writeFile w json (w_stringify w data) with
                           | Throw f => Throw (FsError f)
                           | Ok _ => Ok tt
                           end
                       end
                   end
              /\ stdout (snd (Scraper.main out w))
                 = match fst (Scraper.main out w) with
                   | Ok _ => [lit "Wrote site to " ++ p]
                   | Throw _ => []
                   end
            else fs_calls (snd (Scraper.main out w)) = []
                 /\ fst (Scraper.main out w) = Ok tt
                 /\ stdout (snd (Scraper.main out w))
                    = [output (title data) (url data) (text data)]
        | None =>
            fs_calls (snd (Scraper.main out w)) = []
            /\ fst (Scraper.main out w) = Ok tt
            /\ stdout (snd (Scraper.main out w))
               = [output (title data) (url data) (text data)]
        end
    | _ =>
        fs_calls (snd (Scraper.main out w)) = []
        /\ stdout (snd (Scraper.main out w)) = []
    end.
Proof.
  intros w out. unfold Scraper.main.
  pose proof (fetch_no_fs_no_log w) as Hq. unfold emits in Hq.
  destruct (Scraper.fetchLatestYleArticle w) as [[[data|]|e] t];
    cbn [fst snd] in Hq |- *; destruct (quiet_trace t Hq) as [Hf Ho].
  - destruct out as [p|]; [destruct (truthy p)|].
    + cbn [bind]. unfold Scraper.writeSite. cbv zeta.
      destruct (w_mkdir w (w_dirname w p)) as [[]|f1];
        [destruct (w_writeFile w p (renderHtml data)) as [[]|f2];
         [destruct (w_writeFile w (w_join w (w_dirname w p) (lit "latest.json"))
                                (w_stringify w data)) as [[]|f3]|]|];
        cbn [bind emit await_fs fst snd];
        rewrite ?app_nil_r, ?fs_calls_app, ?stdout_app, ?Hf, ?Ho;
        cbn [app fs_calls stdout filter flat_map is_fs];
        repeat split; reflexivity.
    + cbn [bind emit fst snd].
      rewrite ?app_nil_r, ?fs_calls_app, ?stdout_app, ?Hf, ?Ho.
      repeat split; reflexivity.
    + cbn [bind emit fst snd].
      rewrite ?app_nil_r, ?fs_calls_app, ?stdout_app, ?Hf, ?Ho.
      repeat split; reflexivity.
  - cbn [bind ret]. rewrite app_nil_r. now split.
  - cbn [bind]. now split.
Qed.

(** Where no file may be written, the directory is created, the write of
    the page fails, and neither the record is written nor the
    confirmation printed. *)
Lemma main_outputs_witness :
  fs_calls (snd (Scraper.main (Some (lit "dist/index.html")) read_only_world))
  = [ FsMkdir (lit "dist");
      FsWriteFile (lit "dist/index.html")
        (renderHtml {| title := lit "Headline";
                       url := lit "https://yle.fi/b/2";
                       text := lit "Line one" ++ [LF] ++ lit "Line two";
                       fetchedAt := lit "2024-05-01T10:00:00.000Z" |}) ]
  /\ fst (Scraper.main (Some (lit "dist/index.html")) read_only_world)
     = Throw (FsError AccessDenied)
  /\ stdout (snd (Scraper.main (Some (lit "dist/index.html")) read_only_world))
     = [].
Proof.
  pose proof (main_outputs read_only_world (Some (lit "dist/index.html"))) as H.
  assert (Hrun : fst (Scraper.fetchLatestYleArticle read_only_world)
                 = Ok (Some {| title := lit "Headline";
                               url := lit "https://yle.fi/b/2";
                               text := lit "Line one" ++ [LF] ++ lit "Line two";
                               fetchedAt := lit "2024-05-01T10:00:00.000Z" |}))
    by (vm_compute; reflexivity).
  rewrite Hrun in H. destruct H as [Hf [Hv Ho]].
  split; [exact Hf|]. split; [exact Hv|].
  rewrite Ho, Hv. reflexivity.
Defined.

(* ===================================================================== *)
(** * Further properties of the plain-text summary *)
(* ===================================================================== *)

Section SummaryFurther.

Lemma output_parts t u x :
  output t u x
  = (if truthy t then lit "TITLE: " ++ t ++ [LF] else [])
    ++ (lit "URL: " ++ u) ++ LF :: lit "---" ++ LF :: or_else x no_text_placeholder.
Proof.
  unfold output, or_else.
  destruct t, x; cbn; rewrite <- ?app_assoc; reflexivity.
Qed.

Lemma not_in_app {A} (a : A) l l' : ~ In a l -> ~ In a l' -> ~ In a (l ++ l').
Proof. intros H H' Hin. apply in_app_or in Hin as [Hin|Hin]; auto. Qed.

Lemma lit_URL_no_LF : ~ In LF (lit "URL: ").
Proof. cbn. intuition discriminate. Qed.

Lemma lit_TITLE_no_LF : ~ In LF (lit "TITLE: ").
Proof. cbn. intuition discriminate. Qed.

Lemma lit_rule_no_LF : ~ In LF (lit "---").
Proof. cbn. intuition discriminate. Qed.

End SummaryFurther.

(** X13. The plain-text summary can be read back line by line when
    title and url hold no line break: its lines are the title line (only
    for a non-empty title), the URL line, the separator, and then the
    lines of the body, or the placeholder for an empty body.  For a
    cleaned body these last lines are exactly the kept lines. *)
Theorem output_lines :
  forall t u x,
    ~ In LF t -> ~ In LF u ->
    split LF (output t u x)
    = (if truthy t then [lit "TITLE: " ++ t] else [])
      ++ [lit "URL: " ++ u; lit "---"]
      ++ split LF (or_else x no_text_placeholder)
    /\ split LF (output t u (cleaned x))
       = (if truthy t then [lit "TITLE: " ++ t] else [])
         ++ [lit "URL: " ++ u; lit "---"]
         ++ match kept_lines x with
            | [] => [no_text_placeholder]
            | _ :: _ => kept_lines x
            end.
Proof.
  intros t u x Ht Hu.
  assert (Hlines : forall body,
             split LF (output t u body)
             = (if truthy t then [lit "TITLE: " ++ t] else [])
               ++ [lit "URL: " ++ u; lit "---"]
               ++ split LF (or_else body no_text_placeholder)).
  { intros body. rewrite output_parts.
    assert (Hrest : split LF ((lit "URL: " ++ u) ++ LF :: lit "---"
                              ++ LF :: or_else body no_text_placeholder)
                    = [lit "URL: " ++ u; lit "---"]
                      ++ split LF (or_else body no_text_placeholder)).
    { rewrite split_app_sep by (apply not_in_app; [apply lit_URL_no_LF | exact Hu]).
      now rewrite split_app_sep by apply lit_rule_no_LF. }
    destruct (truthy t); [|exact Hrest].
    rewrite <- !app_assoc. rewrite app_assoc.
    change ((lit "TITLE: " ++ t) ++ [LF] ++ ?r) with ((lit "TITLE: " ++ t) ++ LF :: r).
    rewrite split_app_sep by (apply not_in_app; [apply lit_TITLE_no_LF | exact Ht]).
    cbn [app]. f_equal. exact Hrest. }
  split; [apply Hlines|]. rewrite Hlines. do 2 f_equal.
  rewrite cleaned_kept. unfold or_else.
  pose proof (kept_lines_clean x) as Hk. fold (kept_lines x) in Hk.
  destruct (kept_lines x) as [|l ls] eqn:Hkept; [reflexivity|].
  inversion Hk as [|? ? [Hl _] _]; subst.
  rewrite (join_truthy [LF] l ls Hl). rewrite <- Hkept.
  apply split_kept. rewrite Hkept. discriminate.
Qed.

Lemma output_lines_witness :
  ~ In LF (lit "Headline") /\ ~ In LF (lit "https://yle.fi/b/2")
  /\ split LF (output (lit "Headline") (lit "https://yle.fi/b/2")
                 (cleaned (lit "Line one" ++ [LF; LF] ++ lit "  Line two  ")))
     = [lit "TITLE: Headline"; lit "URL: https://yle.fi/b/2"; lit "---";
        lit "Line one"; lit "Line two"].
Proof.
  assert (H1 : ~ In LF (lit "Headline")) by (cbn; intuition discriminate).
  assert (H2 : ~ In LF (lit "https://yle.fi/b/2")) by (cbn; intuition discriminate).
  split; [exact H1|]. split; [exact H2|].
  exact (proj2 (output_lines (lit "Headline") (lit "https://yle.fi/b/2")
                  (lit "Line one" ++ [LF; LF] ++ lit "  Line two  ") H1 H2)).
Defined.
